(** * gokv adapters: Pebble, NutsDB and Ristretto

    A shallow embedding of the three [gokv.Store] adapters of this
    repository (package [pebble], package [nutsdb], package [ristretto]) and
    of the contract they are meant to implement.

    The storage engines themselves (cockroachdb/pebble, xujiajun/nutsdb,
    dgraph-io/ristretto) are third-party libraries: each one is modelled as
    an interface (a type class of operations that thread the engine state),
    and what a property needs from the engine is a stated hypothesis.  Small
    in-memory engines at the end of the file inhabit every interface. *)

From Stdlib Require Import ZArith Strings.String Strings.Byte.
From stdpp Require Import base option countable gmap strings list.

Open Scope Z_scope.

(** ** Go data *)

(** [[]byte]; a nil slice, where the code tests for it, is [None] of
    [option bytes]. *)
Definition bytes : Type := list byte.

(** The conversion [[]byte(k)] of a key. *)
Definition bytes_of (k : string) : list byte := list_byte_of_string k.

#[global] Instance byte_eq_dec : EqDecision byte.
Proof.
  intros a b. destruct (decide (Byte.to_N a = Byte.to_N b)) as [E|E].
  - left. apply (f_equal Byte.of_N) in E. rewrite !Byte.of_to_N in E. congruence.
  - right. congruence.
Defined.

#[global] Instance byte_countable : Countable byte :=
  inj_countable Byte.to_N Byte.of_N Byte.of_to_N.

(** Go [error] values that the adapters create, compare with or pass on.  A
    nil [error] is [None] of [option error]. *)
Inductive error : Type :=
  | ErrEmptyKey                   (* util: the key is the empty string *)
  | ErrNilValue                   (* util: the value or target is nil *)
  | ErrNotFound                   (* pebble.ErrNotFound *)
  | ErrPairIsNotAdded             (* ristretto adapter, line 11 *)
  | ErrFailedToCast               (* ristretto adapter, line 12 *)
  | EngineError (msg : string)    (* any other error of an engine *)
  | CodecError (msg : string).    (* an error of a codec *)

#[global] Instance error_eq_dec : EqDecision error.
Proof. solve_decision. Defined.

(** A call either returns or panics (a method call through a nil interface
    or a nil pointer). *)
Inductive outcome (A : Type) : Type :=
  | Done (a : A)
  | Panic.
Arguments Done {A} a.
Arguments Panic {A}.

#[global] Instance outcome_bind : MBind outcome :=
  fun A B (f : A → outcome B) (m : outcome A) =>
    match m with Done a => f a | Panic => Panic end.

(** Dereferencing a possibly nil pointer or interface. *)
Definition deref {A : Type} (p : option A) : outcome A :=
  match p with Some a => Done a | None => Panic end.

(** The [interface{}] argument of [Set] and [Get], over a type [V] of Go
    values: the nil interface, a typed pointer that is nil, a plain value,
    or a non-nil pointer together with the value it points to. *)
Inductive iface (V : Type) : Type :=
  | Nil
  | NilPtr
  | Val (v : V)
  | Ptr (cell : V).
Arguments Nil {V}.
Arguments NilPtr {V}.
Arguments Val {V} v.
Arguments Ptr {V} cell.

(** The Go value an interface argument carries, if any. *)
Definition payload {V : Type} (x : iface V) : option V :=
  match x with
  | Val v | Ptr v => Some v
  | Nil | NilPtr => None
  end.

Definition is_nil {V : Type} (x : iface V) : bool :=
  match x with
  | Nil | NilPtr => true
  | Val _ | Ptr _ => false
  end.

(** ** Package util (validation) *)

Module util.

(** Modelled from the spec: package [util] is imported by every adapter but
    is not among the sources.  Section 4.3: CheckKey fails with
    EmptyKeyError iff the key is empty. *)
Definition CheckKey (k : string) : option error :=
  if decide (k = ""%string) then Some ErrEmptyKey else None.

(** Modelled from the spec: section 4.3, CheckKeyAndValue runs CheckKey,
    then fails with NilValueError iff the value is nil/absent; sections 2, 3
    and 7 count a nil output target of [Get] as such a value. *)
Definition CheckKeyAndValue {V : Type} (k : string) (v : iface V) : option error :=
  match CheckKey k with
  | Some err => Some err
  | None => if is_nil v then Some ErrNilValue else None
  end.

End util.

(** ** Package encoding (codecs) *)

Module encoding.

(** The interface [encoding.Codec]: [Marshal(v) ([]byte, error)] and
    [Unmarshal(data, v) error].  [Unmarshal] writes through its target, so
    the model returns the target as it is after the call. *)
Record Codec (V : Type) : Type := {
  Marshal : iface V → bytes + error;
  Unmarshal : bytes → iface V → iface V * option error
}.
Arguments Marshal {V} _ _.
Arguments Unmarshal {V} _ _ _.


End encoding.

(** ** Package pebble *)

Module pebble.

(** [pebble.WriteOptions]; the adapter only sets [Sync]. *)
Record WriteOptions : Type := { Sync : bool }.

(** The part of the engine the adapter calls.  [DB] is the state behind a
    [*pebble.DB], [Closer] the [io.Closer] that [DB.Get] hands out. *)
Class Engine (DB Closer : Type) : Type := {
  pebble_Open : string → DB + error;
  db_Set : DB → bytes → bytes → option WriteOptions → DB * option error;
  db_Get : DB → bytes → DB * (bytes * Closer + error);
  db_Delete : DB → bytes → option WriteOptions → DB * option error;
  db_Close : DB → DB * option error;
  closer_Close : DB → Closer → DB * option error
}.

Section Adapter.
Context {V DB Closer : Type} `{Engine DB Closer}.

(** [type Store struct]: a nil [db] pointer and a nil [codec] interface
    are [None]. *)
Record Store : Type := {
  db : option DB;
  writeSync : bool;
  codec : option (encoding.Codec V)
}.

(** [Store{}] *)
Definition zero_Store : Store :=
  {| db := None; writeSync := false; codec := None |}.

(** The store after the engine behind [s.db] moved to state [d]. *)
Definition with_db (s : Store) (d : DB) : Store :=
  {| db := Some d; writeSync := writeSync s; codec := codec s |}.

(** Lines 29-34 and 70-75: [writeOptions] stays nil unless [s.writeSync]. *)
Definition writeOptions (s : Store) : option WriteOptions :=
  if writeSync s then Some {| Sync := true |} else None.

(** [func (s Store) Set(k string, v interface{}) error] *)
Definition Store_Set (s : Store) (k : string) (v : iface V)
  : outcome (Store * option error) :=
  match util.CheckKeyAndValue k v with
  | Some err => Done (s, Some err)
  | None =>
    c ← deref (codec s);
    match encoding.Marshal c v with
    | inr err => Done (s, Some err)
    | inl data =>
      d ← deref (db s);
      let '(d', err) := db_Set d (bytes_of k) data (writeOptions s) in
      Done (with_db s d', err)
    end
  end.

(** [func (s Store) Get(k string, v interface{}) (found bool, err error)];
    the result also carries the target [v] as the call leaves it.  The
    error of [closer.Close()] is assigned to [err] and not read again. *)
Definition Store_Get (s : Store) (k : string) (v : iface V)
  : outcome (Store * iface V * (bool * option error)) :=
  match util.CheckKeyAndValue k v with
  | Some err => Done (s, v, (false, Some err))
  | None =>
    d ← deref (db s);
    match db_Get d (bytes_of k) with
    | (d', inr err) =>
      if decide (err = ErrNotFound)
      then Done (with_db s d', v, (false, None))
      else Done (with_db s d', v, (false, Some err))
    | (d', inl (data, closer)) =>
      let '(d'', _) := closer_Close d' closer in
      c ← deref (codec s);
      let '(v', err) := encoding.Unmarshal c data v in
      Done (with_db s d'', v', (true, err))
    end
  end.

(** [func (s Store) Delete(k string) error] *)
Definition Store_Delete (s : Store) (k : string)
  : outcome (Store * option error) :=
  match util.CheckKey k with
  | Some err => Done (s, Some err)
  | None =>
    d ← deref (db s);
    let '(d', err) := db_Delete d (bytes_of k) (writeOptions s) in
    Done (with_db s d', err)
  end.

(** [func (s Store) Close() error] *)
Definition Store_Close (s : Store) : outcome (Store * option error) :=
  d ← deref (db s);
  let '(d', err) := db_Close d in
  Done (with_db s d', err).

(** [type Options struct] *)
Record Options : Type := {
  Path : string;
  WriteSync : bool;
  Codec : option (encoding.Codec V)
}.

(** The package-level variables: [var DefaultOptions]. *)
Record Package : Type := { DefaultOptions : Options }.

(** The initial value of [DefaultOptions], given [encoding.JSON]. *)
Definition initial (JSON : encoding.Codec V) : Package :=
  {| DefaultOptions :=
       {| Path := "pebble"; WriteSync := false; Codec := Some JSON |} |}.

(** Lines 116-122 of [NewStore], "Set default values", on the
    constructor's copy [options] of its argument. *)
Definition setDefaults (pkg : Package) (options : Options) : Options :=
  let options :=
    if decide (Path options = ""%string)
    then {| Path := Path (DefaultOptions pkg);
            WriteSync := WriteSync options;
            Codec := Codec options |}
    else options in
  let options :=
    match Codec options with
    | None => {| Path := Path options;
                 WriteSync := WriteSync options;
                 Codec := Codec (DefaultOptions pkg) |}
    | Some _ => options
    end in
  options.

(** [func NewStore(options Options) (Store, error)], as a step on the
    package variables. *)
Definition NewStore (pkg : Package) (options : Options)
  : Package * (Store * option error) :=
  let result := zero_Store in
  let options := setDefaults pkg options in
  match pebble_Open (Path options) with
  | inr err => (pkg, (result, Some err))
  | inl d =>
    (pkg, ({| db := Some d;
              writeSync := WriteSync options;
              codec := Codec options |}, None))
  end.

End Adapter.

Arguments Store : clear implicits.
Arguments Options : clear implicits.
Arguments Package : clear implicits.

(** What the properties below assume of the engine: [contents] gives the
    records a [DB] state holds, and every operation behaves on them as the
    engine documents it.  A write that returns nil has stored its record, a
    read of a stored record returns it, an unknown key is reported as
    [ErrNotFound], and deletes are blind: they succeed on unknown keys. *)
Record Contract {DB Closer : Type} `{Engine DB Closer}
    (contents : DB → gmap bytes bytes) : Prop := {
  Set_stores : ∀ d k data o d',
    db_Set d k data o = (d', None) → contents d' = <[k := data]> (contents d);
  Get_present : ∀ d k data,
    contents d !! k = Some data →
    ∃ d' closer, db_Get d k = (d', inl (data, closer));
  Get_absent : ∀ d k,
    contents d !! k = None →
    ∃ d', db_Get d k = (d', inr ErrNotFound) ∧ contents d' = contents d;
  Delete_removes : ∀ d k o d',
    db_Delete d k o = (d', None) → contents d' = delete k (contents d);
  Delete_absent : ∀ d k o,
    contents d !! k = None → (db_Delete d k o).2 = None
}.

(** The records behind a store; none behind a nil [db]. *)
Definition stored {V DB : Type} (contents : DB → gmap bytes bytes)
    (s : Store V DB) : gmap bytes bytes :=
  match db s with Some d => contents d | None => ∅ end.

End pebble.

(** ** Package nutsdb *)

Module nutsdb.

(** [nutsdb.Entry]; the adapter only reads [Value], a slice that may be
    nil. *)
Record Entry : Type := { Value : option bytes }.

(** [nutsdb.Options]: the three fields the adapter assigns; [Tuning] stands
    for the remaining fields, which keep the values of the engine's own
    defaults. *)
Record EngineOptions (T : Type) : Type := {
  Dir : string;
  SyncEnable : bool;
  EngineNodeNum : Z;
  Tuning : T
}.
Arguments Dir {T} _.
Arguments SyncEnable {T} _.
Arguments EngineNodeNum {T} _.
Arguments Tuning {T} _.

(** The part of the engine the adapter calls.  [DB] is the state behind a
    [*nutsdb.DB] and [Tx] the state of a transaction.  [db_Update] and
    [db_View] take the function literal that the adapter passes; the one
    given to [db_View] assigns to a variable of its caller, which the model
    passes in and gets back with type [A]. *)
Class Engine (DB Tx T : Type) : Type := {
  nutsdb_DefaultOptions : EngineOptions T;
  nutsdb_Open : EngineOptions T → DB + error;
  db_Update : DB → (Tx → Tx * option error) → DB * option error;
  db_View : ∀ A : Type, DB → A → (Tx → A → A * option error) → DB * A * option error;
  tx_Put : Tx → string → bytes → bytes → Z → Tx * option error;
  tx_Get : Tx → string → bytes → Entry + error;
  tx_Delete : Tx → string → bytes → Tx * option error;
  db_Close : DB → DB * option error
}.
Arguments db_View {DB Tx T _ A} _ _ _.

Section Adapter.
Context {V DB Tx T : Type} `{Engine DB Tx T}.

(** [type Store struct] *)
Record Store : Type := {
  db : option DB;
  bucketName : string;
  codec : option (encoding.Codec V)
}.

(** [Store{}] *)
Definition zero_Store : Store :=
  {| db := None; bucketName := ""; codec := None |}.

(** The store after the engine behind [s.db] moved to state [d]. *)
Definition with_db (s : Store) (d : DB) : Store :=
  {| db := Some d; bucketName := bucketName s; codec := codec s |}.

(** [func (s Store) Set(k string, v interface{}) error] *)
Definition Store_Set (s : Store) (k : string) (v : iface V)
  : outcome (Store * option error) :=
  match util.CheckKeyAndValue k v with
  | Some err => Done (s, Some err)
  | None =>
    c ← deref (codec s);
    match encoding.Marshal c v with
    | inr err => Done (s, Some err)
    | inl data =>
      d ← deref (db s);
      let '(d', err) :=
        db_Update d (λ tx, tx_Put tx (bucketName s) (bytes_of k) data 0) in
      match err with
      | Some err => Done (with_db s d', Some err)
      | None => Done (with_db s d', None)
      end
    end
  end.

(** The function literal of [Get], lines 52-63: [data] is the variable of
    [Get] that it assigns to. *)
Definition Get_view (s : Store) (k : string)
  (tx : Tx) (data : option bytes) : option bytes * option error :=
  match tx_Get tx (bucketName s) (bytes_of k) with
  | inr err => (data, Some err)
  | inl e =>
    match Value e with
    | Some value => (Some value, None)
    | None => (data, None)
    end
  end.

(** [func (s Store) Get(k string, v interface{}) (found bool, err error)];
    the result also carries the target [v] as the call leaves it. *)
Definition Store_Get (s : Store) (k : string) (v : iface V)
  : outcome (Store * iface V * (bool * option error)) :=
  match util.CheckKeyAndValue k v with
  | Some err => Done (s, v, (false, Some err))
  | None =>
    d ← deref (db s);
    let '(d', data, err) := db_View d None (Get_view s k) in
    match err with
    | Some _ => Done (with_db s d', v, (false, None))
    | None =>
      match data with
      | None => Done (with_db s d', v, (false, None))
      | Some data =>
        c ← deref (codec s);
        let '(v', err) := encoding.Unmarshal c data v in
        Done (with_db s d', v', (true, err))
      end
    end
  end.

(** [func (s Store) Delete(k string) error] *)
Definition Store_Delete (s : Store) (k : string)
  : outcome (Store * option error) :=
  match util.CheckKey k with
  | Some err => Done (s, Some err)
  | None =>
    d ← deref (db s);
    let '(d', err) :=
      db_Update d (λ tx, tx_Delete tx (bucketName s) (bytes_of k)) in
    Done (with_db s d', err)
  end.

(** [func (s Store) Close() error] *)
Definition Store_Close (s : Store) : outcome (Store * option error) :=
  d ← deref (db s);
  let '(d', err) := db_Close d in
  Done (with_db s d', err).

(** [type Options struct] *)
Record Options : Type := {
  BucketName : string;
  Path : string;
  Sync : bool;
  NodeNum : Z;
  Codec : option (encoding.Codec V)
}.

(** The package-level variables: [var DefaultOptions]. *)
Record Package : Type := { DefaultOptions : Options }.

(** The initial value of [DefaultOptions], given [encoding.JSON]. *)
Definition initial (JSON : encoding.Codec V) : Package :=
  {| DefaultOptions :=
       {| BucketName := "default"; Path := "nuts.db"; Sync := false;
          NodeNum := 1; Codec := Some JSON |} |}.

(** Lines 132-144 of [NewStore], "Set default values", on the
    constructor's copy [options] of its argument. *)
Definition setDefaults (pkg : Package) (options : Options) : Options :=
  let options :=
    if decide (BucketName options = ""%string)
    then {| BucketName := BucketName (DefaultOptions pkg);
            Path := Path options; Sync := Sync options;
            NodeNum := NodeNum options; Codec := Codec options |}
    else options in
  let options :=
    if decide (Path options = ""%string)
    then {| BucketName := BucketName options;
            Path := Path (DefaultOptions pkg); Sync := Sync options;
            NodeNum := NodeNum options; Codec := Codec options |}
    else options in
  let options :=
    match Codec options with
    | None => {| BucketName := BucketName options;
                 Path := Path options; Sync := Sync options;
                 NodeNum := NodeNum options;
                 Codec := Codec (DefaultOptions pkg) |}
    | Some _ => options
    end in
  let options :=
    if NodeNum options =? 0
    then {| BucketName := BucketName options;
            Path := Path options; Sync := Sync options;
            NodeNum := NodeNum (DefaultOptions pkg);
            Codec := Codec options |}
    else options in
  options.

(** Lines 146-149: the engine options built from the engine's defaults. *)
Definition engineOptions (options : Options) : EngineOptions T :=
  let ops := nutsdb_DefaultOptions in
  {| Dir := Path options;
     SyncEnable := Sync options;
     EngineNodeNum := NodeNum options;
     Tuning := Tuning ops |}.

(** [func NewStore(options Options) (Store, error)], as a step on the
    package variables. *)
Definition NewStore (pkg : Package) (options : Options)
  : Package * (Store * option error) :=
  let result := zero_Store in
  let options := setDefaults pkg options in
  let ops := engineOptions options in
  match nutsdb_Open ops with
  | inr err => (pkg, (result, Some err))
  | inl d =>
    (pkg, ({| db := Some d;
              bucketName := BucketName options;
              codec := Codec options |}, None))
  end.

End Adapter.

Arguments Store : clear implicits.
Arguments Options : clear implicits.
Arguments Package : clear implicits.

(** What the properties below assume of the engine: [contents] gives the
    records of a [DB] state, keyed by bucket and key, and [view] those a
    transaction sees.  [db_Update] and [db_View] run their function once in
    a transaction on the current records; an update is committed when the
    function returns nil and discarded otherwise.  Inside a transaction a
    put or delete that returns nil has taken effect, a stored record is read
    back as an entry with a non-nil [Value], an unknown key makes [tx_Get]
    fail, and deleting an unknown key succeeds. *)
Record Contract {DB Tx T : Type} `{Engine DB Tx T}
    (contents : DB → gmap (string * bytes) bytes)
    (view : Tx → gmap (string * bytes) bytes) : Prop := {
  Update_runs : ∀ d f,
    ∃ tx d', view tx = contents d ∧
      db_Update d f = (d', (f tx).2) ∧
      contents d' = match (f tx).2 with
                    | None => view (f tx).1
                    | Some _ => contents d
                    end;
  View_runs : ∀ (A : Type) d (a : A) f,
    ∃ tx d', view tx = contents d ∧
      db_View d a f = (d', (f tx a).1, (f tx a).2) ∧
      contents d' = contents d;
  Put_stores : ∀ tx b k data ttl tx',
    tx_Put tx b k data ttl = (tx', None) → view tx' = <[(b, k) := data]> (view tx);
  Get_present : ∀ tx b k data,
    view tx !! (b, k) = Some data → tx_Get tx b k = inl {| Value := Some data |};
  Get_absent : ∀ tx b k,
    view tx !! (b, k) = None → ∃ err, tx_Get tx b k = inr err;
  Delete_removes : ∀ tx b k tx',
    tx_Delete tx b k = (tx', None) → view tx' = delete (b, k) (view tx);
  Delete_absent : ∀ tx b k,
    view tx !! (b, k) = None → (tx_Delete tx b k).2 = None
}.

(** The records behind a store; none behind a nil [db]. *)
Definition stored {V DB : Type} (contents : DB → gmap (string * bytes) bytes)
    (s : Store V DB) : gmap (string * bytes) bytes :=
  match db s with Some d => contents d | None => ∅ end.

(** The engine key of [k]: the bucket of the store and [[]byte(k)]. *)
Definition key_of {V DB : Type} (s : Store V DB) (k : string) : string * bytes :=
  (bucketName s, bytes_of k).

End nutsdb.

(** ** Package ristretto *)

Module ristretto.

(** What a cache entry holds: an [interface{}], which is nil, a [[]byte],
    or a value of some other dynamic type. *)
Inductive item : Type :=
  | INil
  | IBytes (data : bytes)
  | IOther (typ : string).

(** [value == nil] on an [interface{}] *)
Definition item_is_nil (value : item) : bool :=
  match value with INil => true | _ => false end.

(** [ristretto.Config], the fields the adapter fills in. *)
Record Config : Type := {
  cfg_NumCounters : Z;
  cfg_MaxCost : Z;
  cfg_BufferItems : Z;
  cfg_Metrics : bool
}.

(** The part of the engine the adapter calls; [Cache] is the state behind a
    [*ristretto.Cache]. *)
Class Engine (Cache : Type) : Type := {
  NewCache : Config → Cache + error;
  cache_Set : Cache → string → item → Z → Cache * bool;
  cache_Get : Cache → string → Cache * (item * bool);
  cache_Del : Cache → string → Cache;
  cache_Close : Cache → Cache
}.

Section Adapter.
Context {V Cache : Type} `{Engine Cache}.

(** [type Store struct] *)
Record Store : Type := {
  db : option Cache;
  codec : option (encoding.Codec V)
}.

(** [Store{}] *)
Definition zero_Store : Store := {| db := None; codec := None |}.

(** The store after the cache behind [s.db] moved to state [d]. *)
Definition with_db (s : Store) (d : Cache) : Store :=
  {| db := Some d; codec := codec s |}.

(** [func (s Store) Set(k string, v interface{}) error] *)
Definition Store_Set (s : Store) (k : string) (v : iface V)
  : outcome (Store * option error) :=
  match util.CheckKeyAndValue k v with
  | Some err => Done (s, Some err)
  | None =>
    c ← deref (codec s);
    match encoding.Marshal c v with
    | inr err => Done (s, Some err)
    | inl data =>
      d ← deref (db s);
      let '(d', added) := cache_Set d k (IBytes data) 0 in
      if negb added
      then Done (with_db s d', Some ErrPairIsNotAdded)
      else Done (with_db s d', None)
    end
  end.

(** [func (s Store) Get(k string, v interface{}) (found bool, err error)];
    the result also carries the target [v] as the call leaves it. *)
Definition Store_Get (s : Store) (k : string) (v : iface V)
  : outcome (Store * iface V * (bool * option error)) :=
  match util.CheckKeyAndValue k v with
  | Some err => Done (s, v, (false, Some err))
  | None =>
    d ← deref (db s);
    let '(d', (value, ok)) := cache_Get d k in
    if negb ok || item_is_nil value
    then Done (with_db s d', v, (false, None))
    else
      match value with
      | IBytes data =>
        c ← deref (codec s);
        let '(v', err) := encoding.Unmarshal c data v in
        Done (with_db s d', v', (true, err))
      | _ => Done (with_db s d', v, (false, Some ErrFailedToCast))
      end
  end.

(** [func (s Store) Delete(k string) error] *)
Definition Store_Delete (s : Store) (k : string)
  : outcome (Store * option error) :=
  match util.CheckKey k with
  | Some err => Done (s, Some err)
  | None =>
    d ← deref (db s);
    Done (with_db s (cache_Del d k), None)
  end.

(** [func (s Store) Close() error] *)
Definition Store_Close (s : Store) : outcome (Store * option error) :=
  d ← deref (db s);
  Done (with_db s (cache_Close d), None).

(** [type Options struct] *)
Record Options : Type := {
  NumCounters : Z;
  MaxCost : Z;
  BufferItems : Z;
  Metrics : bool;
  Codec : option (encoding.Codec V)
}.

(** The package-level variables: [var DefaultOptions]. *)
Record Package : Type := { DefaultOptions : Options }.

(** The initial value of [DefaultOptions], given [encoding.JSON]. *)
Definition initial (JSON : encoding.Codec V) : Package :=
  {| DefaultOptions :=
       {| NumCounters := 1000; MaxCost := 100; BufferItems := 64;
          Metrics := false; Codec := Some JSON |} |}.

(** Lines 123-135 of [NewStore], "Set default values", on the
    constructor's copy [options] of its argument.  The three integer
    fields are compared with themselves, as in the source. *)
Definition setDefaults (pkg : Package) (options : Options) : Options :=
  let options :=
    match Codec options with
    | None => {| NumCounters := NumCounters options;
                 MaxCost := MaxCost options;
                 BufferItems := BufferItems options;
                 Metrics := Metrics options;
                 Codec := Codec (DefaultOptions pkg) |}
    | Some _ => options
    end in
  let options :=
    if NumCounters options =? NumCounters options
    then {| NumCounters := NumCounters (DefaultOptions pkg);
            MaxCost := MaxCost options;
            BufferItems := BufferItems options;
            Metrics := Metrics options;
            Codec := Codec options |}
    else options in
  let options :=
    if MaxCost options =? MaxCost options
    then {| NumCounters := NumCounters options;
            MaxCost := MaxCost (DefaultOptions pkg);
            BufferItems := BufferItems options;
            Metrics := Metrics options;
            Codec := Codec options |}
    else options in
  let options :=
    if BufferItems options =? BufferItems options
    then {| NumCounters := NumCounters options;
            MaxCost := MaxCost options;
            BufferItems := BufferItems (DefaultOptions pkg);
            Metrics := Metrics options;
            Codec := Codec options |}
    else options in
  options.

(** Lines 138-143: the [ristretto.Config] handed to [NewCache]. *)
Definition config (options : Options) : Config :=
  {| cfg_NumCounters := NumCounters options;
     cfg_MaxCost := MaxCost options;
     cfg_BufferItems := BufferItems options;
     cfg_Metrics := Metrics options |}.

(** [func NewStore(options Options) (Store, error)], as a step on the
    package variables. *)
Definition NewStore (pkg : Package) (options : Options)
  : Package * (Store * option error) :=
  let result := zero_Store in
  let options := setDefaults pkg options in
  match NewCache (config options) with
  | inr err => (pkg, (result, Some err))
  | inl d => (pkg, ({| db := Some d; codec := Codec options |}, None))
  end.

End Adapter.

Arguments Store : clear implicits.
Arguments Options : clear implicits.
Arguments Package : clear implicits.

(** What the properties below assume of the engine: [contents] gives the
    entries a [Cache] state holds.  A [Set] that returns true has admitted
    the entry, [Get] reports what is held and nothing else, and [Del]
    removes the entry. *)
Record Contract {Cache : Type} `{Engine Cache}
    (contents : Cache → gmap string item) : Prop := {
  Set_admitted : ∀ c k value cost c',
    cache_Set c k value cost = (c', true) → contents c' = <[k := value]> (contents c);
  Get_hit : ∀ c k value,
    contents c !! k = Some value →
    ∃ c', cache_Get c k = (c', (value, true));
  Get_miss : ∀ c k,
    contents c !! k = None →
    ∃ c' value, cache_Get c k = (c', (value, false)) ∧ contents c' = contents c;
  Del_removes : ∀ c k, contents (cache_Del c k) = delete k (contents c)
}.

(** The entries behind a store; none behind a nil [db]. *)
Definition stored {V Cache : Type} (contents : Cache → gmap string item)
    (s : Store V Cache) : gmap string item :=
  match db s with Some d => contents d | None => ∅ end.

End ristretto.

(** ** Repeating an operation *)

(** [n] calls of [op] in a row; the errors they return, in order. *)
Fixpoint repeated {S : Type} (op : S → outcome (S * option error))
    (n : nat) (s : S) : outcome (S * list (option error)) :=
  match n with
  | O => Done (s, [])
  | S n =>
    '(s', err) ← op s;
    '(s'', errs) ← repeated op n s';
    Done (s'', err :: errs)
  end.

(** ** In-memory engines and a codec

    One engine for every interface, as plain finite maps, and variants of
    them that fail where a real engine can: they are the concrete stores on
    which the properties are run. *)

Module mem.

(** [test.Foo] of the conformance tests. *)
Record Foo : Type := { Bar : string; privateBar : string }.

(** [Foo{}] *)
Definition zero_Foo : Foo := {| Bar := ""; privateBar := "" |}.

(** A codec in the manner of [encoding.JSON] on [Foo]: it writes a tag byte
    and the exported field, rejects nil values, targets that are not
    pointers and data without the tag, and leaves the unexported field of
    the target alone. *)
Definition Foo_codec : encoding.Codec Foo := {|
  encoding.Marshal x :=
    match payload x with
    | Some v => inl ("{"%byte :: bytes_of (Bar v))
    | None => inr (CodecError "nil value")
    end;
  encoding.Unmarshal data x :=
    match x, data with
    | Ptr out, b :: rest =>
      if decide (b = "{"%byte)
      then (Ptr {| Bar := string_of_list_byte rest;
                   privateBar := privateBar out |}, None)
      else (x, Some (CodecError "invalid character"))
    | Ptr out, [] => (x, Some (CodecError "unexpected end of input"))
    | _, _ => (x, Some (CodecError "target is not a pointer"))
    end
|}.


(** *** Pebble *)

(** A store that holds its records in a map and never fails. *)
#[local] Instance pebble_engine : pebble.Engine (gmap bytes bytes) unit := {|
  pebble.pebble_Open _ := inl ∅;
  pebble.db_Set d k data _ := (<[k := data]> d, None);
  pebble.db_Get d k :=
    match d !! k with
    | Some data => (d, inl (data, tt))
    | None => (d, inr ErrNotFound)
    end;
  pebble.db_Delete d k _ := (delete k d, None);
  pebble.db_Close d := (d, None);
  pebble.closer_Close d _ := (d, None)
|}.

(** The state of an engine on a failing disk: its records and the error
    the disk answers with. *)
Record failing (M : Type) : Type := { records : M; fault : error }.
Arguments records {M} _.
Arguments fault {M} _.

(** Every read fails with the error of the disk. *)
Definition pebble_failing_reads
  : pebble.Engine (failing (gmap bytes bytes)) unit := {|
  pebble.pebble_Open _ := inr (EngineError "no such directory");
  pebble.db_Set d k data _ :=
    ({| records := <[k := data]> (records d); fault := fault d |}, None);
  pebble.db_Get d k := (d, inr (fault d));
  pebble.db_Delete d k _ :=
    ({| records := delete k (records d); fault := fault d |}, None);
  pebble.db_Close d := (d, None);
  pebble.closer_Close d _ := (d, Some (fault d))
|}.

(** Reads succeed, and releasing the handle of a read fails with the error
    of the disk. *)
Definition pebble_failing_close
  : pebble.Engine (failing (gmap bytes bytes)) unit := {|
  pebble.pebble_Open _ := inr (EngineError "no such directory");
  pebble.db_Set d k data _ :=
    ({| records := <[k := data]> (records d); fault := fault d |}, None);
  pebble.db_Get d k :=
    match records d !! k with
    | Some data => (d, inl (data, tt))
    | None => (d, inr ErrNotFound)
    end;
  pebble.db_Delete d k _ :=
    ({| records := delete k (records d); fault := fault d |}, None);
  pebble.db_Close d := (d, None);
  pebble.closer_Close d _ := (d, Some (fault d))
|}.

(** *** NutsDB *)

(** A store that holds its records in a map, keyed by bucket and key; a
    transaction works on a copy that an update installs when its function
    returns nil. *)
#[local] Instance nutsdb_engine
  : nutsdb.Engine (gmap (string * bytes) bytes) (gmap (string * bytes) bytes) unit := {|
  nutsdb.nutsdb_DefaultOptions :=
    {| nutsdb.Dir := ""; nutsdb.SyncEnable := false;
       nutsdb.EngineNodeNum := 1; nutsdb.Tuning := tt |};
  nutsdb.nutsdb_Open _ := inl ∅;
  nutsdb.db_Update d f :=
    match f d with
    | (tx, None) => (tx, None)
    | (_, Some err) => (d, Some err)
    end;
  nutsdb.db_View A d a f := (d, (f d a).1, (f d a).2);
  nutsdb.tx_Put tx b k data _ := (<[(b, k) := data]> tx, None);
  nutsdb.tx_Get tx b k :=
    match tx !! (b, k) with
    | Some data => inl {| nutsdb.Value := Some data |}
    | None => inr (EngineError "key not found")
    end;
  nutsdb.tx_Delete tx b k := (delete (b, k) tx, None);
  nutsdb.db_Close d := (d, None)
|}.

(** The same store on a failing disk: every read in a transaction returns
    the error the state carries. *)
Definition nutsdb_failing_reads
  : nutsdb.Engine (failing (gmap (string * bytes) bytes))
                  (failing (gmap (string * bytes) bytes)) unit := {|
  nutsdb.nutsdb_DefaultOptions :=
    {| nutsdb.Dir := ""; nutsdb.SyncEnable := false;
       nutsdb.EngineNodeNum := 1; nutsdb.Tuning := tt |};
  nutsdb.nutsdb_Open _ := inr (EngineError "no such directory");
  nutsdb.db_Update d f :=
    match f d with
    | (tx, None) => (tx, None)
    | (_, Some err) => (d, Some err)
    end;
  nutsdb.db_View A d a f := (d, (f d a).1, (f d a).2);
  nutsdb.tx_Put tx b k data _ :=
    ({| records := <[(b, k) := data]> (records tx); fault := fault tx |}, None);
  nutsdb.tx_Get tx b k := inr (fault tx);
  nutsdb.tx_Delete tx b k :=
    ({| records := delete (b, k) (records tx); fault := fault tx |}, None);
  nutsdb.db_Close d := (d, None)
|}.

(** *** Ristretto *)

(** A cache that remembers its configuration, admits every entry and
    evicts none. *)
#[local] Instance ristretto_engine
  : ristretto.Engine (ristretto.Config * gmap string ristretto.item) := {|
  ristretto.NewCache cfg := inl (cfg, ∅);
  ristretto.cache_Set c k value _ := ((c.1, <[k := value]> c.2), true);
  ristretto.cache_Get c k :=
    match c.2 !! k with
    | Some value => (c, (value, true))
    | None => (c, (ristretto.INil, false))
    end;
  ristretto.cache_Del c k := (c.1, delete k c.2);
  ristretto.cache_Close c := c
|}.

(** A cache that admits nothing. *)
Definition ristretto_rejecting
  : ristretto.Engine (ristretto.Config * gmap string ristretto.item) := {|
  ristretto.NewCache cfg := inl (cfg, ∅);
  ristretto.cache_Set c k value _ := (c, false);
  ristretto.cache_Get c k :=
    match c.2 !! k with
    | Some value => (c, (value, true))
    | None => (c, (ristretto.INil, false))
    end;
  ristretto.cache_Del c k := (c.1, delete k c.2);
  ristretto.cache_Close c := c
|}.

(** *** Stores of the scenarios

    The value and key of the end-to-end scenario of the conformance tests,
    [Set("user1", Foo{Bar: "baz"})], an error of a failing disk, and the
    stores the scenarios start from. *)

Definition user1 : Foo := {| Bar := "baz"; privateBar := "" |}.

(** What [Foo_codec] writes for [user1]. *)
Definition user1_data : bytes := "{"%byte :: bytes_of "baz".

(** Bytes that [Foo_codec] cannot read back. *)
Definition garbage : bytes := bytes_of "baz".

Definition io_error : error := EngineError "input/output error".

(** Open and empty stores on the engines that never fail. *)
Definition pebble_store : pebble.Store Foo (gmap bytes bytes) :=
  {| pebble.db := Some ∅; pebble.writeSync := false;
     pebble.codec := Some Foo_codec |}.

Definition nutsdb_store : nutsdb.Store Foo (gmap (string * bytes) bytes) :=
  {| nutsdb.db := Some ∅; nutsdb.bucketName := "default";
     nutsdb.codec := Some Foo_codec |}.

Definition ristretto_config : ristretto.Config :=
  {| ristretto.cfg_NumCounters := 1000; ristretto.cfg_MaxCost := 100;
     ristretto.cfg_BufferItems := 64; ristretto.cfg_Metrics := false |}.

Definition ristretto_store
  : ristretto.Store Foo (ristretto.Config * gmap string ristretto.item) :=
  {| ristretto.db := Some (ristretto_config, ∅);
     ristretto.codec := Some Foo_codec |}.

(** Open stores whose record under "user1" is [data]. *)
Definition pebble_store_with (data : bytes)
  : pebble.Store Foo (gmap bytes bytes) :=
  {| pebble.db := Some {[ bytes_of "user1" := data ]};
     pebble.writeSync := false; pebble.codec := Some Foo_codec |}.

Definition nutsdb_store_with (data : bytes)
  : nutsdb.Store Foo (gmap (string * bytes) bytes) :=
  {| nutsdb.db := Some {[ ("default"%string, bytes_of "user1") := data ]};
     nutsdb.bucketName := "default"; nutsdb.codec := Some Foo_codec |}.

Definition ristretto_store_with (value : ristretto.item)
  : ristretto.Store Foo (ristretto.Config * gmap string ristretto.item) :=
  {| ristretto.db := Some (ristretto_config, {[ "user1"%string := value ]});
     ristretto.codec := Some Foo_codec |}.

(** Open stores that hold [user1] on a disk that fails with [io_error]. *)
Definition pebble_store_failing
  : pebble.Store Foo (failing (gmap bytes bytes)) :=
  {| pebble.db := Some {| records := {[ bytes_of "user1" := user1_data ]};
                          fault := io_error |};
     pebble.writeSync := false; pebble.codec := Some Foo_codec |}.

Definition nutsdb_store_failing
  : nutsdb.Store Foo (failing (gmap (string * bytes) bytes)) :=
  {| nutsdb.db :=
       Some {| records := {[ ("default"%string, bytes_of "user1") := user1_data ]};
               fault := io_error |};
     nutsdb.bucketName := "default"; nutsdb.codec := Some Foo_codec |}.

(** Options in which the caller has set every field. *)
Definition ristretto_options : ristretto.Options Foo :=
  {| ristretto.NumCounters := 5; ristretto.MaxCost := 7;
     ristretto.BufferItems := 9; ristretto.Metrics := true;
     ristretto.Codec := Some Foo_codec |}.

End mem.

(** ** The contract of [gokv.Store]

    The properties an adapter is held to, stated once over any
    implementation: its three operations, how it exposes its codec, when it
    is open (an engine handle is attached), the records it holds and the
    engine key it files a key under.  [wrap] is the form in which the bytes
    of a value are kept in a record. *)

Module gokv.

Section Contract.
Context {V S K X : Type} `{Countable K}.
Variable Set_ : S → string → iface V → outcome (S * option error).
Variable Get_ : S → string → iface V → outcome (S * iface V * (bool * option error)).
Variable Delete_ : S → string → outcome (S * option error).
Variable codec_of : S → option (encoding.Codec V).
Variable is_open : S → Prop.
Variable records : S → gmap K X.
Variable key_of : S → string → K.
Variable wrap : bytes → X.



(** An absent key is not an error: [Get] of a non-empty key without a
    record returns [(false, nil)], leaves the target and the records as they
    were; this is the case right after a [Delete] that returned nil. *)
Definition absent_is_not_found : Prop :=
  (∀ s k out,
     is_open s → k ≠ ""%string → records s !! key_of s k = None →
     ∃ s', Get_ s k (Ptr out) = Done (s', Ptr out, (false, None)) ∧
           records s' = records s) ∧
  (∀ s s1 k out,
     Delete_ s k = Done (s1, None) →
     ∃ s2, Get_ s1 k (Ptr out) = Done (s2, Ptr out, (false, None))).

(** [Delete] is idempotent: on a non-empty key without a record it returns
    nil and leaves the records as they were, and after a [Delete] that
    returned nil any number of further ones all return nil and leave the
    records as the first one left them. *)
Definition delete_idempotent : Prop :=
  (∀ s k,
     is_open s → k ≠ ""%string → records s !! key_of s k = None →
     ∃ s', Delete_ s k = Done (s', None) ∧ records s' = records s) ∧
  (∀ s s1 k n,
     Delete_ s k = Done (s1, None) →
     ∃ sn, repeated (λ s, Delete_ s k) n s1 = Done (sn, replicate n None) ∧
           records sn = records s1).

(** A record that cannot be deserialized is an error of [Get]: when the
    bytes under a non-empty key make [Unmarshal] into the target fail with
    [err], [Get] returns [err]. *)
Definition unmarshal_error_surfaces : Prop :=
  ∀ s c k v data err,
    is_open s → codec_of s = Some c →
    k ≠ ""%string → is_nil v = false →
    records s !! key_of s k = Some (wrap data) →
    (encoding.Unmarshal c data v).2 = Some err →
    ∃ s' v' found, Get_ s k v = Done (s', v', (found, Some err)).

(** The end-to-end scenario of the conformance tests on one key: [Set],
    [Get], [Delete], [Get]; the result is what the four calls returned, with
    the target of each [Get] as the call left it. *)
Definition scenario (s : S) (k : string) (v out : V)
  : outcome (option error * (iface V * (bool * option error)) *
             option error * (iface V * (bool * option error))) :=
  '(s, err1) ← Set_ s k (Val v);
  '(s, out2, res2) ← Get_ s k (Ptr out);
  '(s, err3) ← Delete_ s k;
  '(s, out4, res4) ← Get_ s k (Ptr out);
  Done (err1, (out2, res2), err3, (out4, res4)).

End Contract.

End gokv.

(** ** What [Get] answers from a record

    The target, the found flag and the error that [Get] hands back for a
    valid call, as a function of the record the engine holds under the
    key. *)

(** Pebble and NutsDB: no record, or the bytes of a record. *)
Definition answer {V : Type} (c : encoding.Codec V) (record : option bytes)
    (v : iface V) : iface V * (bool * option error) :=
  match record with
  | None => (v, (false, None))
  | Some data =>
    ((encoding.Unmarshal c data v).1, (true, (encoding.Unmarshal c data v).2))
  end.

(** Ristretto: no entry, or an entry that holds nil, bytes or a value of
    another type. *)
Definition ristretto_answer {V : Type} (c : encoding.Codec V)
    (record : option ristretto.item) (v : iface V)
  : iface V * (bool * option error) :=
  match record with
  | None | Some ristretto.INil => (v, (false, None))
  | Some (ristretto.IBytes data) =>
    ((encoding.Unmarshal c data v).1, (true, (encoding.Unmarshal c data v).2))
  | Some (ristretto.IOther _) => (v, (false, Some ErrFailedToCast))
  end.

(** ** Stores that are ready, engines that accept writes *)

(** A store with an engine handle and a codec attached. *)
Definition pebble_ready {V DB : Type} (s : pebble.Store V DB) : Prop :=
  is_Some (pebble.db s) ∧ is_Some (pebble.codec s).

Definition nutsdb_ready {V DB : Type} (s : nutsdb.Store V DB) : Prop :=
  is_Some (nutsdb.db s) ∧ is_Some (nutsdb.codec s).

Definition ristretto_ready {V Cache : Type} (s : ristretto.Store V Cache) : Prop :=
  is_Some (ristretto.db s) ∧ is_Some (ristretto.codec s).

(** Engines whose writes do not fail: every set and delete returns nil, and
    the cache admits every entry. *)
Definition pebble_accepts_writes {DB Closer : Type} `{pebble.Engine DB Closer}
  : Prop :=
  (∀ d k data o, (pebble.db_Set d k data o).2 = None) ∧
  (∀ d k o, (pebble.db_Delete d k o).2 = None).

Definition nutsdb_accepts_writes {DB Tx T : Type} `{nutsdb.Engine DB Tx T}
  : Prop :=
  (∀ tx b k data ttl, (nutsdb.tx_Put tx b k data ttl).2 = None) ∧
  (∀ tx b k, (nutsdb.tx_Delete tx b k).2 = None).

Definition ristretto_accepts_writes {Cache : Type} `{ristretto.Engine Cache}
  : Prop :=
  ∀ c k value cost, (ristretto.cache_Set c k value cost).2 = true.

(** ** Sequences of calls *)

Module calls.

(** A call of one of the four methods of a store, and what it returned. *)
Inductive call (V : Type) : Type :=
  | DoSet (k : string) (v : iface V)
  | DoGet (k : string) (v : iface V)
  | DoDelete (k : string)
  | DoClose.
Arguments DoSet {V} k v.
Arguments DoGet {V} k v.
Arguments DoDelete {V} k.
Arguments DoClose {V}.

Inductive result (V : Type) : Type :=
  | Returned (err : option error)
  | Got (v : iface V) (found : bool) (err : option error).
Arguments Returned {V} err.
Arguments Got {V} v found err.

Section Run.
Context {V S : Type}.
Variable Set_ : S → string → iface V → outcome (S * option error).
Variable Get_ : S → string → iface V → outcome (S * iface V * (bool * option error)).
Variable Delete_ : S → string → outcome (S * option error).
Variable Close_ : S → outcome (S * option error).

Definition perform (c : call V) (s : S) : outcome (S * result V) :=
  match c with
  | DoSet k v => '(s', err) ← Set_ s k v; Done (s', Returned err)
  | DoGet k v => '(s', v', (found, err)) ← Get_ s k v; Done (s', Got v' found err)
  | DoDelete k => '(s', err) ← Delete_ s k; Done (s', Returned err)
  | DoClose => '(s', err) ← Close_ s; Done (s', Returned err)
  end.

(** The calls of [cs] one after the other on the same store. *)
Fixpoint run (cs : list (call V)) (s : S) : outcome (S * list (result V)) :=
  match cs with
  | [] => Done (s, [])
  | c :: cs =>
    '(s', r) ← perform c s;
    '(s'', rs) ← run cs s';
    Done (s'', r :: rs)
  end.

End Run.

End calls.

(** ** Package test (the conformance tests) *)

Module test.

(** What a test has reported through [t.Error] and [t.Errorf]. *)
Inductive report : Type :=
  | Error (err : error)
  | Unexpected                      (* A value was found, but no value was expected *)
  | Missing                         (* No value was found, but should have been *)
  | Mismatch (expected actual : mem.Foo).

(** [actual != expected] on [Foo] compares the two fields. *)
#[global] Instance Foo_eq_dec : EqDecision mem.Foo.
Proof. solve_decision. Defined.

(** [if err != nil { t.Error(err) }] *)
Definition report_error (err : option error) : list report :=
  match err with Some err => [Error err] | None => [] end.

(** [*actualPtr], for the pointer that was passed to [Get]. *)
Definition pointee (actualPtr : iface mem.Foo) : mem.Foo :=
  match actualPtr with
  | Ptr actual => actual
  | _ => mem.zero_Foo
  end.

Section Harness.
Context {S : Type}.
Variable Set_ : S → string → iface mem.Foo → outcome (S * option error).
Variable Get_ : S → string → iface mem.Foo
                → outcome (S * iface mem.Foo * (bool * option error)).
Variable Delete_ : S → string → outcome (S * option error).

(** [func TestStore(store gokv.Store, t *testing.T)], lines 27-82, for the
    random [key] it draws; the result is what [t] has been told, in order.
    [new(Foo)] is a pointer to [Foo{}]. *)
Definition TestStore (store : S) (key : string) : outcome (S * list report) :=
  let t : list report := [] in
  '(store, _, (found, err)) ← Get_ store key (Ptr mem.zero_Foo);
  let t := t ++ report_error err in
  let t := t ++ (if found : bool then [Unexpected] else []) in
  '(store, err) ← Delete_ store key;
  let t := t ++ report_error err in
  let val := {| mem.Bar := "baz"; mem.privateBar := "" |} in
  '(store, err) ← Set_ store key (Val val);
  let t := t ++ report_error err in
  let expected := val in
  '(store, actualPtr, (found, err)) ← Get_ store key (Ptr mem.zero_Foo);
  let t := t ++ report_error err in
  let t := t ++ (if negb found then [Missing] else []) in
  let actual := pointee actualPtr in
  let t := t ++ (if decide (actual = expected) then [] else [Mismatch expected actual]) in
  '(store, err) ← Delete_ store key;
  let t := t ++ report_error err in
  '(store, _, (found, err)) ← Get_ store key (Ptr mem.zero_Foo);
  let t := t ++ report_error err in
  let t := t ++ (if found : bool then [Unexpected] else []) in
  Done (store, t).

(** [func InteractWithStore(store, key, t, waitGroup)], lines 270-287: a
    read, a write of [Foo{}] and a read, reporting errors only.
    [waitGroup_Done] is the method [Done] of [sync.WaitGroup] on the
    state [W] of the wait group; the deferred call runs when the function
    returns. *)
Definition InteractWithStore {W : Type} (waitGroup_Done : W → outcome W)
    (store : S) (key : string) (waitGroup : W)
  : outcome (S * list report * W) :=
  let t : list report := [] in
  '(store, _, (_, err)) ← Get_ store key (Ptr mem.zero_Foo);
  let t := t ++ report_error err in
  '(store, err) ← Set_ store key (Val mem.zero_Foo);
  let t := t ++ report_error err in
  '(store, _, (_, err)) ← Get_ store key (Ptr mem.zero_Foo);
  let t := t ++ report_error err in
  waitGroup ← waitGroup_Done waitGroup;
  Done (store, t, waitGroup).

End Harness.

End test.

(** * Properties *)

(** ** Validation *)

Lemma CheckKey_empty : util.CheckKey "" = Some ErrEmptyKey.
Proof. reflexivity. Qed.

Lemma CheckKey_nonempty (k : string) : k ≠ ""%string → util.CheckKey k = None.
Proof. intros Hk. unfold util.CheckKey. by destruct (decide (k = ""%string)). Qed.

Lemma CheckKey_None (k : string) : util.CheckKey k = None → k ≠ ""%string.
Proof. unfold util.CheckKey. by destruct (decide (k = ""%string)). Qed.

Lemma CheckKeyAndValue_empty {V : Type} (v : iface V) :
  util.CheckKeyAndValue "" v = Some ErrEmptyKey.
Proof. reflexivity. Qed.


Lemma CheckKeyAndValue_ok {V : Type} (k : string) (v : iface V) :
  k ≠ ""%string → is_nil v = false → util.CheckKeyAndValue k v = None.
Proof.
  intros Hk Hv. unfold util.CheckKeyAndValue.
  by rewrite (CheckKey_nonempty k Hk), Hv.
Qed.

Lemma CheckKeyAndValue_None {V : Type} (k : string) (v : iface V) :
  util.CheckKeyAndValue k v = None → k ≠ ""%string ∧ is_nil v = false.
Proof.
  unfold util.CheckKeyAndValue.
  destruct (util.CheckKey k) eqn:Hk; [done|].
  destruct (is_nil v); [done|]. intros _. split; [by apply CheckKey_None | done].
Qed.

Lemma payload_not_nil {V : Type} (x : iface V) (v : V) :
  payload x = Some v → is_nil x = false.
Proof. by destruct x. Qed.

(** Every validation error is one of the two errors of package util. *)
Lemma CheckKeyAndValue_error {V : Type} (k : string) (v : iface V) (err : error) :
  util.CheckKeyAndValue k v = Some err → err = ErrEmptyKey ∨ err = ErrNilValue.
Proof.
  unfold util.CheckKeyAndValue, util.CheckKey.
  destruct (decide (k = ""%string)); [intros [= <-]; by left|].
  destruct (is_nil v); [intros [= <-]; by right | done].
Qed.

(** ** Package pebble *)

Section PebbleFacts.
Context {V DB Closer : Type} `{pebble.Engine DB Closer}.
Implicit Types (s : pebble.Store V DB) (k : string) (v : iface V).

(** A [Set] that returns nil went through validation, marshalling and the
    engine. *)
Lemma pebble_Set_nil_inv s s1 k v :
  pebble.Store_Set s k v = Done (s1, None) →
  ∃ c d d' data,
    pebble.codec s = Some c ∧ pebble.db s = Some d ∧
    k ≠ ""%string ∧ is_nil v = false ∧
    encoding.Marshal c v = inl data ∧
    pebble.db_Set d (bytes_of k) data (pebble.writeOptions s) = (d', None) ∧
    s1 = pebble.with_db s d'.
Proof.
  unfold pebble.Store_Set.
  destruct (util.CheckKeyAndValue k v) eqn:Hcheck; [done|].
  apply CheckKeyAndValue_None in Hcheck as [Hk Hv].
  destruct (pebble.codec s) as [c|]; [simpl|done].
  destruct (encoding.Marshal c v) as [data|] eqn:Hm; [|done].
  destruct (pebble.db s) as [d|]; [simpl|done].
  destruct (pebble.db_Set _ _ _ _) as [d' err] eqn:Hset.
  intros [= <- ->]. by exists c, d, d', data.
Qed.

(** What [Get] does once the engine has answered, for a valid call. *)
Lemma pebble_Get_found s d d' k v data closer :
  pebble.db s = Some d → k ≠ ""%string → is_nil v = false →
  pebble.db_Get d (bytes_of k) = (d', inl (data, closer)) →
  pebble.Store_Get s k v =
    c ← deref (pebble.codec s);
    Done (pebble.with_db s (pebble.closer_Close d' closer).1,
          (encoding.Unmarshal c data v).1,
          (true, (encoding.Unmarshal c data v).2)).
Proof.
  intros Hd Hk Hv Hget. unfold pebble.Store_Get.
  rewrite (CheckKeyAndValue_ok k v Hk Hv), Hd. simpl. rewrite Hget.
  destruct (pebble.closer_Close d' closer) as [d'' cerr]. simpl.
  destruct (pebble.codec s) as [c|]; [simpl|done].
  by destruct (encoding.Unmarshal c data v).
Qed.

Lemma pebble_Get_not_found s d d' k v :
  pebble.db s = Some d → k ≠ ""%string → is_nil v = false →
  pebble.db_Get d (bytes_of k) = (d', inr ErrNotFound) →
  pebble.Store_Get s k v = Done (pebble.with_db s d', v, (false, None)).
Proof.
  intros Hd Hk Hv Hget. unfold pebble.Store_Get.
  by rewrite (CheckKeyAndValue_ok k v Hk Hv), Hd; simpl; rewrite Hget.
Qed.

(** An error of the engine's read other than [ErrNotFound] is returned as
    it is. *)
Lemma pebble_Get_engine_error s d d' k v err :
  pebble.db s = Some d → k ≠ ""%string → is_nil v = false →
  pebble.db_Get d (bytes_of k) = (d', inr err) → err ≠ ErrNotFound →
  pebble.Store_Get s k v = Done (pebble.with_db s d', v, (false, Some err)).
Proof.
  intros Hd Hk Hv Hget Hne. unfold pebble.Store_Get.
  rewrite (CheckKeyAndValue_ok k v Hk Hv), Hd; simpl; rewrite Hget.
  by destruct (decide (err = ErrNotFound)).
Qed.

Lemma pebble_Delete_nil_inv s s1 k :
  pebble.Store_Delete s k = Done (s1, None) →
  ∃ d d',
    pebble.db s = Some d ∧ k ≠ ""%string ∧
    pebble.db_Delete d (bytes_of k) (pebble.writeOptions s) = (d', None) ∧
    s1 = pebble.with_db s d'.
Proof.
  unfold pebble.Store_Delete.
  destruct (util.CheckKey k) eqn:Hcheck; [done|].
  apply CheckKey_None in Hcheck.
  destruct (pebble.db s) as [d|]; [simpl|done].
  destruct (pebble.db_Delete _ _ _) as [d' err] eqn:Hdel.
  intros [= <- ->]. by exists d, d'.
Qed.


Context (contents : DB → gmap bytes bytes) (HC : pebble.Contract contents).

Lemma pebble_stored_with_db s d :
  pebble.stored contents (pebble.with_db s d) = contents d.
Proof. reflexivity. Qed.


Lemma pebble_absent_is_not_found :
  gokv.absent_is_not_found pebble.Store_Get pebble.Store_Delete
    (λ s, is_Some (pebble.db s)) (pebble.stored contents) (λ _ k, bytes_of k).
Proof.
  split.
  - intros s k out [d Hd] Hk Habs.
    unfold pebble.stored in Habs. rewrite Hd in Habs.
    destruct (pebble.Get_absent _ HC d (bytes_of k) Habs) as (d' & Hget & Hsame).
    exists (pebble.with_db s d'). split.
    + by apply (pebble_Get_not_found s d d').
    + unfold pebble.stored. by rewrite Hd.
  - intros s s1 k out Hdel.
    apply pebble_Delete_nil_inv in Hdel as (d & d' & Hd & Hk & Hdel & ->).
    apply (pebble.Delete_removes _ HC) in Hdel.
    destruct (pebble.Get_absent _ HC d' (bytes_of k)) as (d2 & Hget & _);
      [by rewrite Hdel, lookup_delete_eq|].
    exists (pebble.with_db (pebble.with_db s d') d2).
    by apply (pebble_Get_not_found _ d' d2).
Qed.

(** Deleting a key without a record returns nil and keeps the records. *)
Lemma pebble_Delete_absent s d k :
  pebble.db s = Some d → k ≠ ""%string → contents d !! bytes_of k = None →
  ∃ d', pebble.Store_Delete s k = Done (pebble.with_db s d', None) ∧
        contents d' = contents d.
Proof.
  intros Hd Hk Habs. unfold pebble.Store_Delete.
  rewrite (CheckKey_nonempty k Hk), Hd. simpl.
  pose proof (pebble.Delete_absent _ HC d (bytes_of k) (pebble.writeOptions s) Habs) as Hnil.
  destruct (pebble.db_Delete _ _ _) as [d' err] eqn:Hdel. simpl in Hnil. subst err.
  exists d'. split; [done|].
  rewrite (pebble.Delete_removes _ HC _ _ _ _ Hdel). by apply delete_id.
Qed.

Lemma pebble_delete_idempotent :
  gokv.delete_idempotent pebble.Store_Delete
    (λ s, is_Some (pebble.db s)) (pebble.stored contents) (λ _ k, bytes_of k).
Proof.
  split.
  - intros s k [d Hd] Hk Habs.
    unfold pebble.stored in Habs. rewrite Hd in Habs.
    destruct (pebble_Delete_absent s d k Hd Hk Habs) as (d' & Hdel & Hsame).
    exists (pebble.with_db s d'). split; [done|].
    unfold pebble.stored. by rewrite Hd.
  - intros s s1 k n Hdel.
    apply pebble_Delete_nil_inv in Hdel as (d & d' & Hd & Hk & Hdel & ->).
    apply (pebble.Delete_removes _ HC) in Hdel.
    assert (contents d' !! bytes_of k = None) as Habs
      by (by rewrite Hdel, lookup_delete_eq).
    clear Hdel Hd d. revert d' Habs.
    induction n as [|n IH]; intros d' Habs.
    + by exists (pebble.with_db s d').
    + destruct (pebble_Delete_absent (pebble.with_db s d') d' k eq_refl Hk Habs)
        as (d2 & Hdel & Hsame).
      destruct (IH d2) as (sn & Hrep & Hrec); [by rewrite Hsame|].
      exists sn. split.
      * simpl. rewrite Hdel. simpl. change (pebble.with_db (pebble.with_db s d') d2)
          with (pebble.with_db s d2). rewrite Hrep. done.
      * rewrite Hrec. by rewrite !pebble_stored_with_db.
Qed.

Lemma pebble_unmarshal_error_surfaces :
  gokv.unmarshal_error_surfaces pebble.Store_Get pebble.codec
    (λ s, is_Some (pebble.db s)) (pebble.stored contents) (λ _ k, bytes_of k) id.
Proof.
  intros s c k v data err [d Hd] Hc Hk Hv Hrec Hun.
  unfold pebble.stored in Hrec. rewrite Hd in Hrec.
  destruct (pebble.Get_present _ HC d (bytes_of k) data Hrec)
    as (d' & closer & Hget).
  rewrite (pebble_Get_found s d d' k v data closer Hd Hk Hv Hget), Hc. simpl.
  rewrite Hun. eauto.
Qed.

End PebbleFacts.

(** ** Package nutsdb *)

Section NutsdbFacts.
Context {V DB Tx T : Type} `{nutsdb.Engine DB Tx T}.
Implicit Types (s : nutsdb.Store V DB) (k : string) (v : iface V).

Lemma nutsdb_Set_nil_inv s s1 k v :
  nutsdb.Store_Set s k v = Done (s1, None) →
  ∃ c d d' data,
    nutsdb.codec s = Some c ∧ nutsdb.db s = Some d ∧
    k ≠ ""%string ∧ is_nil v = false ∧
    encoding.Marshal c v = inl data ∧
    nutsdb.db_Update d
      (λ tx, nutsdb.tx_Put tx (nutsdb.bucketName s) (bytes_of k) data 0)
      = (d', None) ∧
    s1 = nutsdb.with_db s d'.
Proof.
  unfold nutsdb.Store_Set.
  destruct (util.CheckKeyAndValue k v) eqn:Hcheck; [done|].
  apply CheckKeyAndValue_None in Hcheck as [Hk Hv].
  destruct (nutsdb.codec s) as [c|]; [simpl|done].
  destruct (encoding.Marshal c v) as [data|] eqn:Hm; [|done].
  destruct (nutsdb.db s) as [d|]; [simpl|done].
  destruct (nutsdb.db_Update _ _) as [d' [err|]] eqn:Hup; [done|].
  intros [= <-]. by exists c, d, d', data.
Qed.

(** Whatever error the read transaction ends with, [Get] answers
    [(false, nil)]. *)
Lemma nutsdb_Get_view_error s d d' k v data err :
  nutsdb.db s = Some d → k ≠ ""%string → is_nil v = false →
  nutsdb.db_View d None (nutsdb.Get_view s k) = (d', data, Some err) →
  nutsdb.Store_Get s k v = Done (nutsdb.with_db s d', v, (false, None)).
Proof.
  intros Hd Hk Hv Hview. unfold nutsdb.Store_Get.
  by rewrite (CheckKeyAndValue_ok k v Hk Hv), Hd; simpl; rewrite Hview.
Qed.

Lemma nutsdb_Get_view_nil s d d' k v :
  nutsdb.db s = Some d → k ≠ ""%string → is_nil v = false →
  nutsdb.db_View d None (nutsdb.Get_view s k) = (d', None, None) →
  nutsdb.Store_Get s k v = Done (nutsdb.with_db s d', v, (false, None)).
Proof.
  intros Hd Hk Hv Hview. unfold nutsdb.Store_Get.
  by rewrite (CheckKeyAndValue_ok k v Hk Hv), Hd; simpl; rewrite Hview.
Qed.

Lemma nutsdb_Get_view_data s d d' k v data :
  nutsdb.db s = Some d → k ≠ ""%string → is_nil v = false →
  nutsdb.db_View d None (nutsdb.Get_view s k) = (d', Some data, None) →
  nutsdb.Store_Get s k v =
    c ← deref (nutsdb.codec s);
    Done (nutsdb.with_db s d',
          (encoding.Unmarshal c data v).1,
          (true, (encoding.Unmarshal c data v).2)).
Proof.
  intros Hd Hk Hv Hview. unfold nutsdb.Store_Get.
  rewrite (CheckKeyAndValue_ok k v Hk Hv), Hd; simpl; rewrite Hview.
  destruct (nutsdb.codec s) as [c|]; [simpl|done].
  by destruct (encoding.Unmarshal c data v).
Qed.

Lemma nutsdb_Delete_nil_inv s s1 k :
  nutsdb.Store_Delete s k = Done (s1, None) →
  ∃ d d',
    nutsdb.db s = Some d ∧ k ≠ ""%string ∧
    nutsdb.db_Update d
      (λ tx, nutsdb.tx_Delete tx (nutsdb.bucketName s) (bytes_of k))
      = (d', None) ∧
    s1 = nutsdb.with_db s d'.
Proof.
  unfold nutsdb.Store_Delete.
  destruct (util.CheckKey k) eqn:Hcheck; [done|].
  apply CheckKey_None in Hcheck.
  destruct (nutsdb.db s) as [d|]; [simpl|done].
  destruct (nutsdb.db_Update _ _) as [d' err] eqn:Hup.
  intros [= <- ->]. by exists d, d'.
Qed.


Context (contents : DB → gmap (string * bytes) bytes)
        (view : Tx → gmap (string * bytes) bytes)
        (HC : nutsdb.Contract contents view).

Lemma nutsdb_stored_with_db s d :
  nutsdb.stored contents (nutsdb.with_db s d) = contents d.
Proof. reflexivity. Qed.

(** An update that returned nil has committed what its function did. *)
Lemma nutsdb_Update_nil d d' f :
  nutsdb.db_Update d f = (d', None) →
  ∃ tx tx', view tx = contents d ∧ f tx = (tx', None) ∧ contents d' = view tx'.
Proof.
  intros Hup.
  destruct (nutsdb.Update_runs _ _ HC d f) as (tx & d0 & Hview & Hrun & Hcont).
  rewrite Hup in Hrun. destruct (f tx) as [tx' err] eqn:Hf. simpl in *.
  injection Hrun as <- <-. by exists tx, tx'.
Qed.

Lemma nutsdb_view_present s d k data :
  contents d !! nutsdb.key_of s k = Some data →
  ∃ d', nutsdb.db_View d None (nutsdb.Get_view s k) = (d', Some data, None) ∧
        contents d' = contents d.
Proof.
  intros Hrec.
  destruct (nutsdb.View_runs _ _ HC _ d None (nutsdb.Get_view s k))
    as (tx & d' & Hview & Hrun & Hcont).
  exists d'. split; [|done]. rewrite Hrun. unfold nutsdb.Get_view.
  rewrite (nutsdb.Get_present _ _ HC tx _ _ data); [done|].
  by rewrite Hview.
Qed.

Lemma nutsdb_view_absent s d k :
  contents d !! nutsdb.key_of s k = None →
  ∃ d' err, nutsdb.db_View d None (nutsdb.Get_view s k) = (d', None, Some err) ∧
            contents d' = contents d.
Proof.
  intros Hrec.
  destruct (nutsdb.View_runs _ _ HC _ d None (nutsdb.Get_view s k))
    as (tx & d' & Hview & Hrun & Hcont).
  destruct (nutsdb.Get_absent _ _ HC tx (nutsdb.bucketName s) (bytes_of k))
    as [err Herr]; [by rewrite Hview|].
  exists d', err. split; [|done]. rewrite Hrun. unfold nutsdb.Get_view.
  by rewrite Herr.
Qed.


Lemma nutsdb_absent_is_not_found :
  gokv.absent_is_not_found nutsdb.Store_Get nutsdb.Store_Delete
    (λ s, is_Some (nutsdb.db s)) (nutsdb.stored contents) nutsdb.key_of.
Proof.
  split.
  - intros s k out [d Hd] Hk Habs.
    unfold nutsdb.stored in Habs. rewrite Hd in Habs.
    destruct (nutsdb_view_absent s d k Habs) as (d' & err & Hview & Hsame).
    exists (nutsdb.with_db s d'). split.
    + by apply (nutsdb_Get_view_error s d d' k (Ptr out) None err).
    + unfold nutsdb.stored. by rewrite Hd.
  - intros s s1 k out Hdel.
    apply nutsdb_Delete_nil_inv in Hdel as (d & d' & Hd & Hk & Hup & ->).
    apply nutsdb_Update_nil in Hup as (tx & tx' & Hview & Hdel & Hcont).
    apply (nutsdb.Delete_removes _ _ HC) in Hdel.
    destruct (nutsdb_view_absent (nutsdb.with_db s d') d' k)
      as (d2 & err & Hget & _).
    { rewrite Hcont, Hdel. apply lookup_delete_eq. }
    exists (nutsdb.with_db (nutsdb.with_db s d') d2).
    by apply (nutsdb_Get_view_error _ d' d2 k (Ptr out) None err).
Qed.

Lemma nutsdb_Delete_absent s d k :
  nutsdb.db s = Some d → k ≠ ""%string → contents d !! nutsdb.key_of s k = None →
  ∃ d', nutsdb.Store_Delete s k = Done (nutsdb.with_db s d', None) ∧
        contents d' = contents d.
Proof.
  intros Hd Hk Habs. unfold nutsdb.Store_Delete.
  rewrite (CheckKey_nonempty k Hk), Hd. simpl.
  destruct (nutsdb.Update_runs _ _ HC d
              (λ tx, nutsdb.tx_Delete tx (nutsdb.bucketName s) (bytes_of k)))
    as (tx & d' & Hview & Hrun & Hcont).
  rewrite Hrun. simpl in *.
  pose proof (nutsdb.Delete_absent _ _ HC tx (nutsdb.bucketName s) (bytes_of k)) as Hnil.
  rewrite Hview in Hnil. specialize (Hnil Habs).
  destruct (nutsdb.tx_Delete tx _ _) as [tx' err] eqn:Hdel. simpl in *. subst err.
  exists d'. split; [done|].
  rewrite Hcont, (nutsdb.Delete_removes _ _ HC _ _ _ _ Hdel), Hview.
  by apply delete_id.
Qed.

Lemma nutsdb_delete_idempotent :
  gokv.delete_idempotent nutsdb.Store_Delete
    (λ s, is_Some (nutsdb.db s)) (nutsdb.stored contents) nutsdb.key_of.
Proof.
  split.
  - intros s k [d Hd] Hk Habs.
    unfold nutsdb.stored in Habs. rewrite Hd in Habs.
    destruct (nutsdb_Delete_absent s d k Hd Hk Habs) as (d' & Hdel & Hsame).
    exists (nutsdb.with_db s d'). split; [done|].
    unfold nutsdb.stored. by rewrite Hd.
  - intros s s1 k n Hdel.
    apply nutsdb_Delete_nil_inv in Hdel as (d & d' & Hd & Hk & Hup & ->).
    apply nutsdb_Update_nil in Hup as (tx & tx' & Hview & Hdel & Hcont).
    apply (nutsdb.Delete_removes _ _ HC) in Hdel.
    assert (contents d' !! nutsdb.key_of s k = None) as Habs
      by (rewrite Hcont, Hdel; apply lookup_delete_eq).
    clear Hdel Hcont Hview Hd tx tx' d. revert d' Habs.
    induction n as [|n IH]; intros d' Habs.
    + by exists (nutsdb.with_db s d').
    + destruct (nutsdb_Delete_absent (nutsdb.with_db s d') d' k eq_refl Hk Habs)
        as (d2 & Hdel & Hsame).
      destruct (IH d2) as (sn & Hrep & Hrec); [by rewrite Hsame|].
      exists sn. split.
      * simpl. rewrite Hdel. simpl.
        change (nutsdb.with_db (nutsdb.with_db s d') d2)
          with (nutsdb.with_db s d2). by rewrite Hrep.
      * rewrite Hrec. by rewrite !nutsdb_stored_with_db.
Qed.

Lemma nutsdb_unmarshal_error_surfaces :
  gokv.unmarshal_error_surfaces nutsdb.Store_Get nutsdb.codec
    (λ s, is_Some (nutsdb.db s)) (nutsdb.stored contents) nutsdb.key_of id.
Proof.
  intros s c k v data err [d Hd] Hc Hk Hv Hrec Hun.
  unfold nutsdb.stored in Hrec. rewrite Hd in Hrec.
  destruct (nutsdb_view_present s d k data Hrec) as (d' & Hview & _).
  rewrite (nutsdb_Get_view_data s d d' k v data Hd Hk Hv Hview), Hc. simpl.
  rewrite Hun. eauto.
Qed.

End NutsdbFacts.

(** ** Package ristretto *)

Section RistrettoFacts.
Context {V Cache : Type} `{ristretto.Engine Cache}.
Implicit Types (s : ristretto.Store V Cache) (k : string) (v : iface V).

(** [Set] after validation and marshalling: the answer of the cache decides
    between nil and [ErrPairIsNotAdded]. *)
Lemma ristretto_Set_marshalled s c d k v data :
  ristretto.codec s = Some c → ristretto.db s = Some d →
  k ≠ ""%string → is_nil v = false →
  encoding.Marshal c v = inl data →
  ristretto.Store_Set s k v =
    Done (ristretto.with_db s (ristretto.cache_Set d k (ristretto.IBytes data) 0).1,
          if (ristretto.cache_Set d k (ristretto.IBytes data) 0).2
          then None else Some ErrPairIsNotAdded).
Proof.
  intros Hc Hd Hk Hv Hm. unfold ristretto.Store_Set.
  rewrite (CheckKeyAndValue_ok k v Hk Hv), Hc. simpl. rewrite Hm, Hd. simpl.
  by destruct (ristretto.cache_Set d k _ 0) as [d' []].
Qed.

Lemma ristretto_Set_nil_inv s s1 k v :
  ristretto.Store_Set s k v = Done (s1, None) →
  ∃ c d d' data,
    ristretto.codec s = Some c ∧ ristretto.db s = Some d ∧
    k ≠ ""%string ∧ is_nil v = false ∧
    encoding.Marshal c v = inl data ∧
    ristretto.cache_Set d k (ristretto.IBytes data) 0 = (d', true) ∧
    s1 = ristretto.with_db s d'.
Proof.
  unfold ristretto.Store_Set.
  destruct (util.CheckKeyAndValue k v) eqn:Hcheck; [done|].
  apply CheckKeyAndValue_None in Hcheck as [Hk Hv].
  destruct (ristretto.codec s) as [c|]; [simpl|done].
  destruct (encoding.Marshal c v) as [data|] eqn:Hm; [|done].
  destruct (ristretto.db s) as [d|]; [simpl|done].
  destruct (ristretto.cache_Set _ _ _ _) as [d' []] eqn:Hset; [|done].
  intros [= <-]. by exists c, d, d', data.
Qed.

(** What [Get] does with each answer of the cache, for a valid call. *)
Lemma ristretto_Get_miss s d d' k v value :
  ristretto.db s = Some d → k ≠ ""%string → is_nil v = false →
  ristretto.cache_Get d k = (d', (value, false)) →
  ristretto.Store_Get s k v = Done (ristretto.with_db s d', v, (false, None)).
Proof.
  intros Hd Hk Hv Hget. unfold ristretto.Store_Get.
  by rewrite (CheckKeyAndValue_ok k v Hk Hv), Hd; simpl; rewrite Hget.
Qed.

Lemma ristretto_Get_nil s d d' k v ok :
  ristretto.db s = Some d → k ≠ ""%string → is_nil v = false →
  ristretto.cache_Get d k = (d', (ristretto.INil, ok)) →
  ristretto.Store_Get s k v = Done (ristretto.with_db s d', v, (false, None)).
Proof.
  intros Hd Hk Hv Hget. unfold ristretto.Store_Get.
  rewrite (CheckKeyAndValue_ok k v Hk Hv), Hd; simpl; rewrite Hget.
  by destruct ok.
Qed.

Lemma ristretto_Get_bytes s d d' k v data :
  ristretto.db s = Some d → k ≠ ""%string → is_nil v = false →
  ristretto.cache_Get d k = (d', (ristretto.IBytes data, true)) →
  ristretto.Store_Get s k v =
    c ← deref (ristretto.codec s);
    Done (ristretto.with_db s d',
          (encoding.Unmarshal c data v).1,
          (true, (encoding.Unmarshal c data v).2)).
Proof.
  intros Hd Hk Hv Hget. unfold ristretto.Store_Get.
  rewrite (CheckKeyAndValue_ok k v Hk Hv), Hd; simpl; rewrite Hget. simpl.
  destruct (ristretto.codec s) as [c|]; [simpl|done].
  by destruct (encoding.Unmarshal c data v).
Qed.

Lemma ristretto_Get_other s d d' k v typ :
  ristretto.db s = Some d → k ≠ ""%string → is_nil v = false →
  ristretto.cache_Get d k = (d', (ristretto.IOther typ, true)) →
  ristretto.Store_Get s k v =
    Done (ristretto.with_db s d', v, (false, Some ErrFailedToCast)).
Proof.
  intros Hd Hk Hv Hget. unfold ristretto.Store_Get.
  by rewrite (CheckKeyAndValue_ok k v Hk Hv), Hd; simpl; rewrite Hget.
Qed.

(** [Get] reports a value only for bytes that the cache returned as
    present. *)
Lemma ristretto_Get_found_inv s s' k v v' err :
  ristretto.Store_Get s k v = Done (s', v', (true, err)) →
  ∃ d d' data,
    ristretto.db s = Some d ∧
    ristretto.cache_Get d k = (d', (ristretto.IBytes data, true)).
Proof.
  unfold ristretto.Store_Get.
  destruct (util.CheckKeyAndValue k v); [done|].
  destruct (ristretto.db s) as [d|]; [simpl|done].
  destruct (ristretto.cache_Get d k) as [d' [value ok]] eqn:Hget.
  destruct ok; [|done]. destruct value as [|data|typ]; simpl; [done| |done].
  intros _. by exists d, d', data.
Qed.

Lemma ristretto_Delete_eq s d k :
  ristretto.db s = Some d → k ≠ ""%string →
  ristretto.Store_Delete s k =
    Done (ristretto.with_db s (ristretto.cache_Del d k), None).
Proof.
  intros Hd Hk. unfold ristretto.Store_Delete.
  by rewrite (CheckKey_nonempty k Hk), Hd.
Qed.

Lemma ristretto_Delete_nil_inv s s1 k :
  ristretto.Store_Delete s k = Done (s1, None) →
  ∃ d, ristretto.db s = Some d ∧ k ≠ ""%string ∧
       s1 = ristretto.with_db s (ristretto.cache_Del d k).
Proof.
  unfold ristretto.Store_Delete.
  destruct (util.CheckKey k) eqn:Hcheck; [done|].
  apply CheckKey_None in Hcheck.
  destruct (ristretto.db s) as [d|]; [simpl|done].
  intros [= <-]. by exists d.
Qed.


Context (contents : Cache → gmap string ristretto.item)
        (HC : ristretto.Contract contents).

Lemma ristretto_stored_with_db s d :
  ristretto.stored contents (ristretto.with_db s d) = contents d.
Proof. reflexivity. Qed.


Lemma ristretto_absent_is_not_found :
  gokv.absent_is_not_found ristretto.Store_Get ristretto.Store_Delete
    (λ s, is_Some (ristretto.db s)) (ristretto.stored contents) (λ _ k, k).
Proof.
  split.
  - intros s k out [d Hd] Hk Habs.
    unfold ristretto.stored in Habs. rewrite Hd in Habs.
    destruct (ristretto.Get_miss _ HC d k Habs) as (d' & value & Hget & Hsame).
    exists (ristretto.with_db s d'). split.
    + by apply (ristretto_Get_miss s d d' k (Ptr out) value).
    + unfold ristretto.stored. by rewrite Hd.
  - intros s s1 k out Hdel.
    apply ristretto_Delete_nil_inv in Hdel as (d & Hd & Hk & ->).
    destruct (ristretto.Get_miss _ HC (ristretto.cache_Del d k) k)
      as (d2 & value & Hget & _).
    { rewrite (ristretto.Del_removes _ HC). apply lookup_delete_eq. }
    exists (ristretto.with_db (ristretto.with_db s (ristretto.cache_Del d k)) d2).
    by apply (ristretto_Get_miss _ (ristretto.cache_Del d k) d2 k (Ptr out) value).
Qed.

Lemma ristretto_delete_idempotent :
  gokv.delete_idempotent ristretto.Store_Delete
    (λ s, is_Some (ristretto.db s)) (ristretto.stored contents) (λ _ k, k).
Proof.
  split.
  - intros s k [d Hd] Hk Habs.
    unfold ristretto.stored in Habs. rewrite Hd in Habs.
    exists (ristretto.with_db s (ristretto.cache_Del d k)). split.
    + by apply ristretto_Delete_eq.
    + unfold ristretto.stored. rewrite Hd. simpl.
      rewrite (ristretto.Del_removes _ HC). by apply delete_id.
  - intros s s1 k n Hdel.
    apply ristretto_Delete_nil_inv in Hdel as (d & Hd & Hk & ->).
    assert (contents (ristretto.cache_Del d k) !! k = None) as Habs
      by (rewrite (ristretto.Del_removes _ HC); apply lookup_delete_eq).
    generalize dependent (ristretto.cache_Del d k). clear Hd d.
    induction n as [|n IH]; intros d' Habs.
    + by exists (ristretto.with_db s d').
    + assert (contents (ristretto.cache_Del d' k) = contents d') as Hsame
        by (rewrite (ristretto.Del_removes _ HC); by apply delete_id).
      destruct (IH (ristretto.cache_Del d' k)) as (sn & Hrep & Hrec);
        [by rewrite Hsame|].
      exists sn. split.
      * simpl.
        rewrite (ristretto_Delete_eq (ristretto.with_db s d') d' k eq_refl Hk).
        simpl. change (ristretto.with_db (ristretto.with_db s d') (ristretto.cache_Del d' k))
          with (ristretto.with_db s (ristretto.cache_Del d' k)). by rewrite Hrep.
      * rewrite Hrec. by rewrite !ristretto_stored_with_db.
Qed.

Lemma ristretto_unmarshal_error_surfaces :
  gokv.unmarshal_error_surfaces ristretto.Store_Get ristretto.codec
    (λ s, is_Some (ristretto.db s)) (ristretto.stored contents) (λ _ k, k)
    ristretto.IBytes.
Proof.
  intros s c k v data err [d Hd] Hc Hk Hv Hrec Hun.
  unfold ristretto.stored in Hrec. rewrite Hd in Hrec.
  destruct (ristretto.Get_hit _ HC d k _ Hrec) as (d' & Hget).
  rewrite (ristretto_Get_bytes s d d' k v data Hd Hk Hv Hget), Hc. simpl.
  rewrite Hun. eauto.
Qed.

End RistrettoFacts.

(** ** The in-memory engines and the codec keep their contracts *)

Lemma mem_pebble_contract : pebble.Contract (H := mem.pebble_engine) id.
Proof.
  split; simpl.
  - by intros d k data o d' [= <-].
  - intros d k data Hrec. exists d, tt. by rewrite Hrec.
  - intros d k Hrec. exists d. by rewrite Hrec.
  - by intros d k o d' [= <-].
  - done.
Qed.

Lemma mem_nutsdb_contract : nutsdb.Contract (H := mem.nutsdb_engine) id id.
Proof.
  split; simpl.
  - intros d f. exists d. destruct (f d) as [tx [err|]] eqn:Hf; eauto.
  - intros A d a f. by exists d, d.
  - by intros tx b k data ttl tx' [= <-].
  - intros tx b k data Hrec. by rewrite Hrec.
  - intros tx b k Hrec. rewrite Hrec. eauto.
  - by intros tx b k tx' [= <-].
  - done.
Qed.

Lemma mem_ristretto_contract : ristretto.Contract (H := mem.ristretto_engine) snd.
Proof.
  split; simpl.
  - by intros c k value cost c' [= <-].
  - intros c k value Hrec. exists c. by rewrite Hrec.
  - intros c k Hrec. exists c, ristretto.INil. by rewrite Hrec.
  - done.
Qed.


(** The end-to-end scenario runs as the conformance tests expect on each
    adapter over its in-memory engine. *)
Lemma scenario_on_the_in_memory_stores :
  gokv.scenario
      (pebble.Store_Set (H := mem.pebble_engine))
      (pebble.Store_Get (H := mem.pebble_engine))
      (pebble.Store_Delete (H := mem.pebble_engine))
      mem.pebble_store "user1" mem.user1 mem.zero_Foo
    = Done (None, (Ptr mem.user1, (true, None)), None,
            (Ptr mem.zero_Foo, (false, None))) ∧
  gokv.scenario
      (nutsdb.Store_Set (H := mem.nutsdb_engine))
      (nutsdb.Store_Get (H := mem.nutsdb_engine))
      (nutsdb.Store_Delete (H := mem.nutsdb_engine))
      mem.nutsdb_store "user1" mem.user1 mem.zero_Foo
    = Done (None, (Ptr mem.user1, (true, None)), None,
            (Ptr mem.zero_Foo, (false, None))) ∧
  gokv.scenario
      (ristretto.Store_Set (H := mem.ristretto_engine))
      (ristretto.Store_Get (H := mem.ristretto_engine))
      (ristretto.Store_Delete (H := mem.ristretto_engine))
      mem.ristretto_store "user1" mem.user1 mem.zero_Foo
    = Done (None, (Ptr mem.user1, (true, None)), None,
            (Ptr mem.zero_Foo, (false, None))).
Proof. repeat split; vm_compute; reflexivity. Qed.

(** ** The claims *)

Section Claims.
Context {V : Type}.
Context {PebbleDB Closer : Type} {PE : pebble.Engine PebbleDB Closer}.
Context {NutsDB Tx T : Type} {NE : nutsdb.Engine NutsDB Tx T}.
Context {Cache : Type} {RE : ristretto.Engine Cache}.


(** C9.  [NewStore] leaves the package variable [DefaultOptions] as it
    found it, for every options value and whether or not the engine opens:
    defaulting assigns to the constructor's copy of the options only. *)
Theorem NewStore_keeps_DefaultOptions :
  (∀ pkg (options : pebble.Options V),
     pebble.DefaultOptions (pebble.NewStore (DB := PebbleDB) pkg options).1
       = pebble.DefaultOptions pkg) ∧
  (∀ pkg (options : nutsdb.Options V),
     nutsdb.DefaultOptions (nutsdb.NewStore (DB := NutsDB) pkg options).1
       = nutsdb.DefaultOptions pkg) ∧
  (∀ pkg (options : ristretto.Options V),
     ristretto.DefaultOptions (ristretto.NewStore (Cache := Cache) pkg options).1
       = ristretto.DefaultOptions pkg).
Proof.
  split; [|split]; intros pkg options.
  - unfold pebble.NewStore. by destruct (pebble.pebble_Open _).
  - unfold nutsdb.NewStore. by destruct (nutsdb.nutsdb_Open _).
  - unfold ristretto.NewStore. by destruct (ristretto.NewCache _).
Qed.

(** C8.  In the ristretto adapter, once validation and marshalling have
    succeeded, the answer of the cache alone decides the result of [Set]:
    the cache declining the pair gives [ErrPairIsNotAdded], the cache
    admitting it gives nil; [ErrPairIsNotAdded] is an error of its own,
    different from every engine, codec and validation error. *)
Theorem ristretto_Set_reports_admission
    (s : ristretto.Store V Cache) (c : encoding.Codec V) (d : Cache)
    (k : string) (v : iface V) (data : bytes) :
  ristretto.codec s = Some c → ristretto.db s = Some d →
  k ≠ ""%string → is_nil v = false →
  encoding.Marshal c v = inl data →
  (∀ d', ristretto.cache_Set d k (ristretto.IBytes data) 0 = (d', false) →
         ristretto.Store_Set s k v
           = Done (ristretto.with_db s d', Some ErrPairIsNotAdded)) ∧
  (∀ d', ristretto.cache_Set d k (ristretto.IBytes data) 0 = (d', true) →
         ristretto.Store_Set s k v = Done (ristretto.with_db s d', None)) ∧
  (∀ msg, ErrPairIsNotAdded ≠ EngineError msg ∧
          ErrPairIsNotAdded ≠ CodecError msg) ∧
  ErrPairIsNotAdded ≠ ErrEmptyKey ∧ ErrPairIsNotAdded ≠ ErrNilValue.
Proof.
  intros Hc Hd Hk Hv Hm.
  pose proof (ristretto_Set_marshalled s c d k v data Hc Hd Hk Hv Hm) as Hset.
  repeat split; try done.
  - intros d' Hcache. by rewrite Hset, Hcache.
  - intros d' Hcache. by rewrite Hset, Hcache.
Qed.

(** C10.  In the ristretto adapter [Get] answers found = true only when the
    cache returned bytes as present under the key; when the cache reports
    the key present with a nil value, [Get] answers [(false, nil)] and
    leaves the target alone. *)
Theorem ristretto_Get_nil_entry_is_absent :
  (∀ (s s' : ristretto.Store V Cache) k v v' err,
     ristretto.Store_Get s k v = Done (s', v', (true, err)) →
     ∃ d d' data,
       ristretto.db s = Some d ∧
       ristretto.cache_Get d k = (d', (ristretto.IBytes data, true))) ∧
  (∀ (s : ristretto.Store V Cache) d d' k (out : V),
     ristretto.db s = Some d → k ≠ ""%string →
     ristretto.cache_Get d k = (d', (ristretto.INil, true)) →
     ristretto.Store_Get s k (Ptr out)
       = Done (ristretto.with_db s d', Ptr out, (false, None))).
Proof.
  split.
  - intros s s' k v v' err. apply ristretto_Get_found_inv.
  - intros s d d' k out Hd Hk Hget.
    by apply (ristretto_Get_nil s d d' k (Ptr out) true).
Qed.

Context (pebble_contents : PebbleDB → gmap bytes bytes)
        (nutsdb_contents : NutsDB → gmap (string * bytes) bytes)
        (nutsdb_view : Tx → gmap (string * bytes) bytes)
        (ristretto_contents : Cache → gmap string ristretto.item).
Context (pebble_ok : pebble.Contract pebble_contents)
        (nutsdb_ok : nutsdb.Contract nutsdb_contents nutsdb_view)
        (ristretto_ok : ristretto.Contract ristretto_contents).


(** C4.  In every adapter, over an engine that keeps its contract: [Get] of
    a non-empty key that has no record in an open store, in particular
    right after a [Delete] of it that returned nil, returns [(false, nil)]
    and leaves the target and the records unchanged. *)
Theorem Get_of_an_absent_key_is_not_found :
  gokv.absent_is_not_found (V := V)
    pebble.Store_Get pebble.Store_Delete
    (λ s, is_Some (pebble.db s)) (pebble.stored pebble_contents)
    (λ _ k, bytes_of k) ∧
  gokv.absent_is_not_found (V := V)
    nutsdb.Store_Get nutsdb.Store_Delete
    (λ s, is_Some (nutsdb.db s)) (nutsdb.stored nutsdb_contents)
    nutsdb.key_of ∧
  gokv.absent_is_not_found (V := V)
    ristretto.Store_Get ristretto.Store_Delete
    (λ s, is_Some (ristretto.db s)) (ristretto.stored ristretto_contents)
    (λ _ k, k).
Proof.
  split; [|split].
  - by apply pebble_absent_is_not_found.
  - by apply (nutsdb_absent_is_not_found nutsdb_contents nutsdb_view).
  - by apply ristretto_absent_is_not_found.
Qed.

(** C5.  In every adapter, over an engine that keeps its contract:
    [Delete] of a non-empty key that has no record in an open store returns
    nil and changes no record, and after a [Delete] that returned nil every
    further [Delete] of the key returns nil and changes no record. *)
Theorem Delete_is_idempotent :
  gokv.delete_idempotent
    (pebble.Store_Delete (V := V))
    (λ s, is_Some (pebble.db s)) (pebble.stored pebble_contents)
    (λ _ k, bytes_of k) ∧
  gokv.delete_idempotent
    (nutsdb.Store_Delete (V := V))
    (λ s, is_Some (nutsdb.db s)) (nutsdb.stored nutsdb_contents)
    nutsdb.key_of ∧
  gokv.delete_idempotent
    (ristretto.Store_Delete (V := V))
    (λ s, is_Some (ristretto.db s)) (ristretto.stored ristretto_contents)
    (λ _ k, k).
Proof.
  split; [|split].
  - by apply pebble_delete_idempotent.
  - by apply (nutsdb_delete_idempotent nutsdb_contents nutsdb_view).
  - by apply ristretto_delete_idempotent.
Qed.

(** C7.  In every adapter, over an engine that keeps its contract: when an
    open store holds bytes under a non-empty key and [Unmarshal] of them
    into the caller's target fails, [Get] returns that error. *)
Theorem Get_surfaces_the_unmarshal_error :
  gokv.unmarshal_error_surfaces (V := V)
    pebble.Store_Get pebble.codec
    (λ s, is_Some (pebble.db s)) (pebble.stored pebble_contents)
    (λ _ k, bytes_of k) id ∧
  gokv.unmarshal_error_surfaces (V := V)
    nutsdb.Store_Get nutsdb.codec
    (λ s, is_Some (nutsdb.db s)) (nutsdb.stored nutsdb_contents)
    nutsdb.key_of id ∧
  gokv.unmarshal_error_surfaces (V := V)
    ristretto.Store_Get ristretto.codec
    (λ s, is_Some (ristretto.db s)) (ristretto.stored ristretto_contents)
    (λ _ k, k) ristretto.IBytes.
Proof.
  split; [|split].
  - by apply pebble_unmarshal_error_surfaces.
  - by apply (nutsdb_unmarshal_error_surfaces nutsdb_contents nutsdb_view).
  - by apply ristretto_unmarshal_error_surfaces.
Qed.

End Claims.

(** ** The claims on the in-memory stores *)


Lemma NewStore_keeps_DefaultOptions_witness :
  ristretto.DefaultOptions
    (ristretto.NewStore (H := mem.ristretto_engine)
       (ristretto.initial mem.Foo_codec) mem.ristretto_options).1
  = ristretto.DefaultOptions (ristretto.initial mem.Foo_codec).
Proof.
  apply (NewStore_keeps_DefaultOptions
           (V := mem.Foo) (PE := mem.pebble_engine)
           (NE := mem.nutsdb_engine) (RE := mem.ristretto_engine)).
Defined.

Lemma ristretto_Set_reports_admission_witness :
  ristretto.Store_Set (H := mem.ristretto_rejecting)
      mem.ristretto_store "user1" (Val mem.user1)
    = Done (mem.ristretto_store, Some ErrPairIsNotAdded) ∧
  ristretto.Store_Set (H := mem.ristretto_engine)
      mem.ristretto_store "user1" (Val mem.user1)
    = Done (mem.ristretto_store_with (ristretto.IBytes mem.user1_data), None).
Proof.
  split.
  - destruct (ristretto_Set_reports_admission (RE := mem.ristretto_rejecting)
                mem.ristretto_store mem.Foo_codec (mem.ristretto_config, ∅)
                "user1" (Val mem.user1) mem.user1_data)
      as (Hrejected & _); [reflexivity | reflexivity | discriminate
                          | reflexivity | reflexivity |].
    apply Hrejected. reflexivity.
  - destruct (ristretto_Set_reports_admission (RE := mem.ristretto_engine)
                mem.ristretto_store mem.Foo_codec (mem.ristretto_config, ∅)
                "user1" (Val mem.user1) mem.user1_data)
      as (_ & Hadmitted & _); [reflexivity | reflexivity | discriminate
                              | reflexivity | reflexivity |].
    apply Hadmitted. reflexivity.
Defined.

Lemma ristretto_Get_nil_entry_is_absent_witness :
  ristretto.Store_Get (H := mem.ristretto_engine)
      (mem.ristretto_store_with ristretto.INil) "user1" (Ptr mem.zero_Foo)
    = Done (mem.ristretto_store_with ristretto.INil, Ptr mem.zero_Foo, (false, None)).
Proof.
  destruct (ristretto_Get_nil_entry_is_absent
              (V := mem.Foo) (RE := mem.ristretto_engine)) as (_ & Hnil).
  apply (Hnil (mem.ristretto_store_with ristretto.INil)
              (mem.ristretto_config, {[ "user1"%string := ristretto.INil ]}));
    [reflexivity | discriminate | reflexivity].
Defined.


Lemma Get_of_an_absent_key_is_not_found_witness :
  (∃ s', pebble.Store_Get (H := mem.pebble_engine)
           mem.pebble_store "user1" (Ptr mem.user1)
         = Done (s', Ptr mem.user1, (false, None))) ∧
  (∃ s1, nutsdb.Store_Delete (H := mem.nutsdb_engine)
           (mem.nutsdb_store_with mem.user1_data) "user1"
         = Done (s1, None) ∧
     ∃ s2, nutsdb.Store_Get (H := mem.nutsdb_engine) s1 "user1" (Ptr mem.user1)
           = Done (s2, Ptr mem.user1, (false, None))) ∧
  (∃ s', ristretto.Store_Get (H := mem.ristretto_engine)
           mem.ristretto_store "user1" (Ptr mem.user1)
         = Done (s', Ptr mem.user1, (false, None))).
Proof.
  destruct (Get_of_an_absent_key_is_not_found
              (V := mem.Foo) (PE := mem.pebble_engine)
              (NE := mem.nutsdb_engine) (RE := mem.ristretto_engine)
              id id id snd
              mem_pebble_contract mem_nutsdb_contract mem_ristretto_contract)
    as ((Hp & _) & (_ & Hn) & (Hr & _)).
  split; [|split].
  - destruct (Hp mem.pebble_store "user1" mem.user1) as (s' & Hget & _);
      [by eexists | discriminate | reflexivity |].
    by exists s'.
  - eexists. split; [reflexivity|].
    eapply (Hn (mem.nutsdb_store_with mem.user1_data)). reflexivity.
  - destruct (Hr mem.ristretto_store "user1" mem.user1) as (s' & Hget & _);
      [by eexists | discriminate | reflexivity |].
    by exists s'.
Defined.

Lemma Delete_is_idempotent_witness :
  (∃ s', pebble.Store_Delete (H := mem.pebble_engine) mem.pebble_store "user1"
         = Done (s', None) ∧
         pebble.stored id s' = pebble.stored id mem.pebble_store) ∧
  (∃ s1, nutsdb.Store_Delete (H := mem.nutsdb_engine)
           (mem.nutsdb_store_with mem.user1_data) "user1"
         = Done (s1, None) ∧
     ∃ s4, repeated (λ s, nutsdb.Store_Delete (H := mem.nutsdb_engine) s "user1") 3 s1
           = Done (s4, [None; None; None]) ∧
           nutsdb.stored id s4 = nutsdb.stored id s1) ∧
  (∃ s1, ristretto.Store_Delete (H := mem.ristretto_engine)
           (mem.ristretto_store_with (ristretto.IBytes mem.user1_data)) "user1"
         = Done (s1, None) ∧
     ∃ s3, repeated (λ s, ristretto.Store_Delete (H := mem.ristretto_engine) s "user1") 2 s1
           = Done (s3, [None; None]) ∧
           ristretto.stored snd s3 = ristretto.stored snd s1).
Proof.
  destruct (Delete_is_idempotent
              (V := mem.Foo) (PE := mem.pebble_engine)
              (NE := mem.nutsdb_engine) (RE := mem.ristretto_engine)
              id id id snd
              mem_pebble_contract mem_nutsdb_contract mem_ristretto_contract)
    as ((Hp & _) & (_ & Hn) & (_ & Hr)).
  split; [|split].
  - apply (Hp mem.pebble_store "user1");
      [by eexists | discriminate | reflexivity].
  - eexists. split; [reflexivity|].
    apply (Hn (mem.nutsdb_store_with mem.user1_data) _ "user1" 3%nat). reflexivity.
  - eexists. split; [reflexivity|].
    apply (Hr (mem.ristretto_store_with (ristretto.IBytes mem.user1_data)) _
              "user1" 2%nat). reflexivity.
Defined.

Lemma Get_surfaces_the_unmarshal_error_witness :
  (∃ s' v' found,
     pebble.Store_Get (H := mem.pebble_engine)
       (mem.pebble_store_with mem.garbage) "user1" (Ptr mem.zero_Foo)
     = Done (s', v', (found, Some (CodecError "invalid character")))) ∧
  (∃ s' v' found,
     nutsdb.Store_Get (H := mem.nutsdb_engine)
       (mem.nutsdb_store_with mem.garbage) "user1" (Ptr mem.zero_Foo)
     = Done (s', v', (found, Some (CodecError "invalid character")))) ∧
  (∃ s' v' found,
     ristretto.Store_Get (H := mem.ristretto_engine)
       (mem.ristretto_store_with (ristretto.IBytes mem.garbage)) "user1"
       (Ptr mem.zero_Foo)
     = Done (s', v', (found, Some (CodecError "invalid character")))).
Proof.
  destruct (Get_surfaces_the_unmarshal_error
              (V := mem.Foo) (PE := mem.pebble_engine)
              (NE := mem.nutsdb_engine) (RE := mem.ristretto_engine)
              id id id snd
              mem_pebble_contract mem_nutsdb_contract mem_ristretto_contract)
    as (Hp & Hn & Hr).
  split; [|split].
  - apply (Hp (mem.pebble_store_with mem.garbage) mem.Foo_codec "user1"
              (Ptr mem.zero_Foo) mem.garbage);
      [by eexists | reflexivity | discriminate | reflexivity
      | reflexivity | reflexivity].
  - apply (Hn (mem.nutsdb_store_with mem.garbage) mem.Foo_codec "user1"
              (Ptr mem.zero_Foo) mem.garbage);
      [by eexists | reflexivity | discriminate | reflexivity
      | reflexivity | reflexivity].
  - apply (Hr (mem.ristretto_store_with (ristretto.IBytes mem.garbage))
              mem.Foo_codec "user1" (Ptr mem.zero_Foo) mem.garbage);
      [by eexists | reflexivity | discriminate | reflexivity
      | reflexivity | reflexivity].
Defined.

(** ** Where the adapters leave the contract *)

(** The defaulting of pebble and nutsdb does what the comments on the
    fields say: an unset field gets the value of [DefaultOptions], a set
    field keeps the caller's value. *)
Lemma pebble_setDefaults_fields {V : Type} (pkg : pebble.Package V) options :
  pebble.Path (pebble.setDefaults pkg options)
    = (if decide (pebble.Path options = ""%string)
       then pebble.Path (pebble.DefaultOptions pkg) else pebble.Path options) ∧
  pebble.WriteSync (pebble.setDefaults pkg options) = pebble.WriteSync options ∧
  pebble.Codec (pebble.setDefaults pkg options)
    = match pebble.Codec options with
      | Some c => Some c
      | None => pebble.Codec (pebble.DefaultOptions pkg)
      end.
Proof.
  unfold pebble.setDefaults.
  destruct options as [path sync [c|]]; simpl;
    by destruct (decide (path = ""%string)).
Qed.

Lemma nutsdb_setDefaults_fields {V : Type} (pkg : nutsdb.Package V) options :
  nutsdb.BucketName (nutsdb.setDefaults pkg options)
    = (if decide (nutsdb.BucketName options = ""%string)
       then nutsdb.BucketName (nutsdb.DefaultOptions pkg)
       else nutsdb.BucketName options) ∧
  nutsdb.Path (nutsdb.setDefaults pkg options)
    = (if decide (nutsdb.Path options = ""%string)
       then nutsdb.Path (nutsdb.DefaultOptions pkg) else nutsdb.Path options) ∧
  nutsdb.Sync (nutsdb.setDefaults pkg options) = nutsdb.Sync options ∧
  nutsdb.NodeNum (nutsdb.setDefaults pkg options)
    = (if nutsdb.NodeNum options =? 0
       then nutsdb.NodeNum (nutsdb.DefaultOptions pkg)
       else nutsdb.NodeNum options) ∧
  nutsdb.Codec (nutsdb.setDefaults pkg options)
    = match nutsdb.Codec options with
      | Some c => Some c
      | None => nutsdb.Codec (nutsdb.DefaultOptions pkg)
      end.
Proof.
  unfold nutsdb.setDefaults.
  destruct options as [bucket path sync node [c|]]; simpl;
    destruct (decide (bucket = ""%string)); simpl;
    destruct (decide (path = ""%string)); simpl;
    by destruct (node =? 0).
Qed.

(** The defaulting of ristretto replaces the three integer fields by the
    values of [DefaultOptions] whatever the caller passed: each field is
    compared with itself. *)
Lemma ristretto_setDefaults_fields {V : Type} (pkg : ristretto.Package V) options :
  ristretto.NumCounters (ristretto.setDefaults pkg options)
    = ristretto.NumCounters (ristretto.DefaultOptions pkg) ∧
  ristretto.MaxCost (ristretto.setDefaults pkg options)
    = ristretto.MaxCost (ristretto.DefaultOptions pkg) ∧
  ristretto.BufferItems (ristretto.setDefaults pkg options)
    = ristretto.BufferItems (ristretto.DefaultOptions pkg) ∧
  ristretto.Metrics (ristretto.setDefaults pkg options)
    = ristretto.Metrics options ∧
  ristretto.Codec (ristretto.setDefaults pkg options)
    = match ristretto.Codec options with
      | Some c => Some c
      | None => ristretto.Codec (ristretto.DefaultOptions pkg)
      end.
Proof.
  unfold ristretto.setDefaults.
  destruct options as [n m b metrics [c|]]; simpl; by rewrite !Z.eqb_refl.
Qed.

(** Whatever the caller passed, the cache is configured with the integer
    values of [DefaultOptions]. *)
Lemma ristretto_NewStore_config {V : Type} (pkg : ristretto.Package V) options :
  ristretto.config (ristretto.setDefaults pkg options)
    = {| ristretto.cfg_NumCounters :=
           ristretto.NumCounters (ristretto.DefaultOptions pkg);
         ristretto.cfg_MaxCost :=
           ristretto.MaxCost (ristretto.DefaultOptions pkg);
         ristretto.cfg_BufferItems :=
           ristretto.BufferItems (ristretto.DefaultOptions pkg);
         ristretto.cfg_Metrics := ristretto.Metrics options |}.
Proof.
  destruct (ristretto_setDefaults_fields pkg options)
    as (Hn & Hm & Hb & Hmetrics & _).
  unfold ristretto.config. by rewrite Hn, Hm, Hb, Hmetrics.
Qed.

(** C3.  [ristretto.NewStore] does not keep the integer fields the caller
    set: from options with NumCounters 5, MaxCost 7 and BufferItems 9 it
    opens the cache with 1000, 100 and 64, the values of [DefaultOptions];
    only [Metrics] and [Codec] are the caller's. *)
Theorem ristretto_NewStore_overrides_the_caller :
  ristretto.setDefaults (ristretto.initial mem.Foo_codec) mem.ristretto_options
    = {| ristretto.NumCounters := 1000; ristretto.MaxCost := 100;
         ristretto.BufferItems := 64; ristretto.Metrics := true;
         ristretto.Codec := Some mem.Foo_codec |} ∧
  (ristretto.NewStore (H := mem.ristretto_engine)
     (ristretto.initial mem.Foo_codec) mem.ristretto_options).2
    = ({| ristretto.db :=
            Some ({| ristretto.cfg_NumCounters := 1000;
                     ristretto.cfg_MaxCost := 100;
                     ristretto.cfg_BufferItems := 64;
                     ristretto.cfg_Metrics := true |}, ∅);
          ristretto.codec := Some mem.Foo_codec |}, None).
Proof. split; reflexivity. Qed.

(** C2.  Errors of the engine that [Get] does not return.  On a disk that
    fails every read with an input/output error, the read transaction of
    the nutsdb adapter ends with that error and [Get] answers
    [(false, nil)], as for a key that is not there.  In the pebble adapter
    the error of closing the handle of a successful read is lost: [Get]
    answers [(true, nil)]. *)
Theorem Get_drops_engine_errors :
  (nutsdb.db_View (Engine := mem.nutsdb_failing_reads)
     {| mem.records := {[ ("default"%string, bytes_of "user1") := mem.user1_data ]};
        mem.fault := mem.io_error |}
     None (nutsdb.Get_view (H := mem.nutsdb_failing_reads)
             mem.nutsdb_store_failing "user1")).2
    = Some (EngineError "input/output error") ∧
  nutsdb.Store_Get (H := mem.nutsdb_failing_reads)
      mem.nutsdb_store_failing "user1" (Ptr mem.zero_Foo)
    = Done (mem.nutsdb_store_failing, Ptr mem.zero_Foo, (false, None)) ∧
  (pebble.closer_Close (Engine := mem.pebble_failing_close)
     {| mem.records := {[ bytes_of "user1" := mem.user1_data ]};
        mem.fault := mem.io_error |} tt).2
    = Some (EngineError "input/output error") ∧
  pebble.Store_Get (H := mem.pebble_failing_close)
      mem.pebble_store_failing "user1" (Ptr mem.zero_Foo)
    = Done (mem.pebble_store_failing, Ptr mem.user1, (true, None)).
Proof. repeat split; reflexivity. Qed.

(** The sibling path: an error of the read itself is returned by the pebble
    adapter as the engine gave it. *)
Lemma pebble_Get_returns_read_error :
  pebble.Store_Get (H := mem.pebble_failing_reads)
      mem.pebble_store_failing "user1" (Ptr mem.zero_Foo)
    = Done (mem.pebble_store_failing, Ptr mem.zero_Foo,
            (false, Some (EngineError "input/output error"))).
Proof. reflexivity. Qed.

(** * Further properties of the adapters *)

(** ** The errors and the target of a call *)

Section Calls.
Context {V : Type}.
Context {PebbleDB Closer : Type} {PE : pebble.Engine PebbleDB Closer}.
Context {NutsDB Tx T : Type} {NE : nutsdb.Engine NutsDB Tx T}.
Context {Cache : Type} {RE : ristretto.Engine Cache}.

(** X1.  Every error that [Set] returns is accounted for: it is the
    validation error, or the error of [Marshal], and then the store is the
    one passed in; or it is the error of the engine's write as the engine
    returned it (pebble, nutsdb), respectively [ErrPairIsNotAdded] after
    the cache answered false (ristretto), on the marshalled bytes. *)
Theorem Set_errors_are_accounted_for :
  (∀ (s s' : pebble.Store V PebbleDB) k v err,
     pebble.Store_Set s k v = Done (s', Some err) →
     (s' = s ∧ util.CheckKeyAndValue k v = Some err) ∨
     (s' = s ∧ ∃ c, pebble.codec s = Some c ∧ encoding.Marshal c v = inr err) ∨
     (∃ c d d' data,
        pebble.codec s = Some c ∧ pebble.db s = Some d ∧
        encoding.Marshal c v = inl data ∧
        pebble.db_Set d (bytes_of k) data (pebble.writeOptions s)
          = (d', Some err) ∧
        s' = pebble.with_db s d')) ∧
  (∀ (s s' : nutsdb.Store V NutsDB) k v err,
     nutsdb.Store_Set s k v = Done (s', Some err) →
     (s' = s ∧ util.CheckKeyAndValue k v = Some err) ∨
     (s' = s ∧ ∃ c, nutsdb.codec s = Some c ∧ encoding.Marshal c v = inr err) ∨
     (∃ c d d' data,
        nutsdb.codec s = Some c ∧ nutsdb.db s = Some d ∧
        encoding.Marshal c v = inl data ∧
        nutsdb.db_Update d
          (λ tx, nutsdb.tx_Put tx (nutsdb.bucketName s) (bytes_of k) data 0)
          = (d', Some err) ∧
        s' = nutsdb.with_db s d')) ∧
  (∀ (s s' : ristretto.Store V Cache) k v err,
     ristretto.Store_Set s k v = Done (s', Some err) →
     (s' = s ∧ util.CheckKeyAndValue k v = Some err) ∨
     (s' = s ∧ ∃ c, ristretto.codec s = Some c ∧ encoding.Marshal c v = inr err) ∨
     (∃ c d d' data,
        ristretto.codec s = Some c ∧ ristretto.db s = Some d ∧
        encoding.Marshal c v = inl data ∧
        ristretto.cache_Set d k (ristretto.IBytes data) 0 = (d', false) ∧
        err = ErrPairIsNotAdded ∧
        s' = ristretto.with_db s d')).
Proof.
  split; [|split]; intros s s' k v err.
  - unfold pebble.Store_Set.
    destruct (util.CheckKeyAndValue k v) as [verr|] eqn:Hcheck.
    { intros [= <- <-]. by left. }
    destruct (pebble.codec s) as [c|]; [simpl|done].
    destruct (encoding.Marshal c v) as [data|merr] eqn:Hm.
    + destruct (pebble.db s) as [d|]; [simpl|done].
      destruct (pebble.db_Set _ _ _ _) as [d' e] eqn:Hset.
      intros [= <- ->]. right; right. by exists c, d, d', data.
    + intros [= <- <-]. right; left. eauto.
  - unfold nutsdb.Store_Set.
    destruct (util.CheckKeyAndValue k v) as [verr|] eqn:Hcheck.
    { intros [= <- <-]. by left. }
    destruct (nutsdb.codec s) as [c|]; [simpl|done].
    destruct (encoding.Marshal c v) as [data|merr] eqn:Hm.
    + destruct (nutsdb.db s) as [d|]; [simpl|done].
      destruct (nutsdb.db_Update _ _) as [d' [e|]] eqn:Hup; [|done].
      intros [= <- <-]. right; right. by exists c, d, d', data.
    + intros [= <- <-]. right; left. eauto.
  - unfold ristretto.Store_Set.
    destruct (util.CheckKeyAndValue k v) as [verr|] eqn:Hcheck.
    { intros [= <- <-]. by left. }
    destruct (ristretto.codec s) as [c|]; [simpl|done].
    destruct (encoding.Marshal c v) as [data|merr] eqn:Hm.
    + destruct (ristretto.db s) as [d|]; [simpl|done].
      destruct (ristretto.cache_Set _ _ _ _) as [d' []] eqn:Hset; [done|].
      intros [= <- <-]. right; right. by exists c, d, d', data.
    + intros [= <- <-]. right; left. eauto.
Qed.

(** X2.  [Get] writes to its target only when it reports the value as
    found: whenever it returns found = false, with or without an error, the
    target is as the caller passed it. *)
Theorem Get_leaves_the_target_unless_found :
  (∀ (s s' : pebble.Store V PebbleDB) k v v' err,
     pebble.Store_Get s k v = Done (s', v', (false, err)) → v' = v) ∧
  (∀ (s s' : nutsdb.Store V NutsDB) k v v' err,
     nutsdb.Store_Get s k v = Done (s', v', (false, err)) → v' = v) ∧
  (∀ (s s' : ristretto.Store V Cache) k v v' err,
     ristretto.Store_Get s k v = Done (s', v', (false, err)) → v' = v).
Proof.
  split; [|split]; intros s s' k v v' err.
  - unfold pebble.Store_Get.
    destruct (util.CheckKeyAndValue k v); [by intros [= _ <- _]|].
    destruct (pebble.db s) as [d|]; [simpl|done].
    destruct (pebble.db_Get d (bytes_of k)) as [d' [[data closer]|e]].
    + destruct (pebble.closer_Close d' closer) as [d'' cerr].
      destruct (pebble.codec s) as [c|]; [simpl|done].
      by destruct (encoding.Unmarshal c data v).
    + destruct (decide (e = ErrNotFound)); by intros [= _ <- _].
  - unfold nutsdb.Store_Get.
    destruct (util.CheckKeyAndValue k v); [by intros [= _ <- _]|].
    destruct (nutsdb.db s) as [d|]; [simpl|done].
    destruct (nutsdb.db_View d None _) as [[d' data] [e|]];
      [by intros [= _ <- _]|].
    destruct data as [data|]; [|by intros [= _ <- _]].
    destruct (nutsdb.codec s) as [c|]; [simpl|done].
    by destruct (encoding.Unmarshal c data v).
  - unfold ristretto.Store_Get.
    destruct (util.CheckKeyAndValue k v); [by intros [= _ <- _]|].
    destruct (ristretto.db s) as [d|]; [simpl|done].
    destruct (ristretto.cache_Get d k) as [d' [value ok]].
    destruct ok; [|by intros [= _ <- _]].
    destruct value as [|data|typ]; simpl; try by intros [= _ <- _].
    destruct (ristretto.codec s) as [c|]; [simpl|done].
    by destruct (encoding.Unmarshal c data v).
Qed.


(** X4.  The only error [Delete] makes itself is the validation error for
    the empty key, returned with the store as passed in.  Any other error of
    the pebble and nutsdb adapters is the error of the engine's delete as
    the engine returned it; the ristretto adapter returns no other error. *)
Theorem Delete_errors_are_accounted_for :
  (∀ (s s' : pebble.Store V PebbleDB) k err,
     pebble.Store_Delete s k = Done (s', Some err) →
     (k = ""%string ∧ err = ErrEmptyKey ∧ s' = s) ∨
     (k ≠ ""%string ∧
      ∃ d d', pebble.db s = Some d ∧
        pebble.db_Delete d (bytes_of k) (pebble.writeOptions s)
          = (d', Some err) ∧
        s' = pebble.with_db s d')) ∧
  (∀ (s s' : nutsdb.Store V NutsDB) k err,
     nutsdb.Store_Delete s k = Done (s', Some err) →
     (k = ""%string ∧ err = ErrEmptyKey ∧ s' = s) ∨
     (k ≠ ""%string ∧
      ∃ d d', nutsdb.db s = Some d ∧
        nutsdb.db_Update d
          (λ tx, nutsdb.tx_Delete tx (nutsdb.bucketName s) (bytes_of k))
          = (d', Some err) ∧
        s' = nutsdb.with_db s d')) ∧
  (∀ (s s' : ristretto.Store V Cache) k err,
     ristretto.Store_Delete s k = Done (s', Some err) →
     k = ""%string ∧ err = ErrEmptyKey ∧ s' = s).
Proof.
  split; [|split]; intros s s' k err.
  - unfold pebble.Store_Delete, util.CheckKey.
    destruct (decide (k = ""%string)) as [->|Hk].
    { intros [= <- <-]. by left. }
    destruct (pebble.db s) as [d|]; [simpl|done].
    destruct (pebble.db_Delete _ _ _) as [d' e] eqn:Hdel.
    intros [= <- ->]. right. split; [done|]. by exists d, d'.
  - unfold nutsdb.Store_Delete, util.CheckKey.
    destruct (decide (k = ""%string)) as [->|Hk].
    { intros [= <- <-]. by left. }
    destruct (nutsdb.db s) as [d|]; [simpl|done].
    destruct (nutsdb.db_Update _ _) as [d' e] eqn:Hup.
    intros [= <- ->]. right. split; [done|]. by exists d, d'.
  - unfold ristretto.Store_Delete, util.CheckKey.
    destruct (decide (k = ""%string)) as [->|Hk].
    { by intros [= <- <-]. }
    by destruct (ristretto.db s).
Qed.

End Calls.

(** ** Constructors *)

Section Constructors.
Context {V : Type}.
Context {PebbleDB Closer : Type} {PE : pebble.Engine PebbleDB Closer}.
Context {NutsDB Tx T : Type} {NE : nutsdb.Engine NutsDB Tx T}.
Context {Cache : Type} {RE : ristretto.Engine Cache}.

(** [NewStore] of pebble and of nutsdb hands the engine and the store
    the caller's options, with [DefaultOptions] standing in for an empty
    path, an empty bucket name, a zero node number and a nil codec only;
    when the engine does not open, the result is [Store{}] and the engine's
    error as the engine returned it. *)
Theorem NewStore_honours_the_options :
  (∀ (pkg : pebble.Package V) options,
     (pebble.NewStore (DB := PebbleDB) pkg options).2 =
       match pebble.pebble_Open
               (if decide (pebble.Path options = ""%string)
                then pebble.Path (pebble.DefaultOptions pkg)
                else pebble.Path options) with
       | inl d =>
         ({| pebble.db := Some d;
             pebble.writeSync := pebble.WriteSync options;
             pebble.codec :=
               match pebble.Codec options with
               | Some c => Some c
               | None => pebble.Codec (pebble.DefaultOptions pkg)
               end |}, None)
       | inr err => (pebble.zero_Store, Some err)
       end) ∧
  (∀ (pkg : nutsdb.Package V) options,
     (nutsdb.NewStore (DB := NutsDB) pkg options).2 =
       match nutsdb.nutsdb_Open
               {| nutsdb.Dir :=
                    if decide (nutsdb.Path options = ""%string)
                    then nutsdb.Path (nutsdb.DefaultOptions pkg)
                    else nutsdb.Path options;
                  nutsdb.SyncEnable := nutsdb.Sync options;
                  nutsdb.EngineNodeNum :=
                    if nutsdb.NodeNum options =? 0
                    then nutsdb.NodeNum (nutsdb.DefaultOptions pkg)
                    else nutsdb.NodeNum options;
                  nutsdb.Tuning := nutsdb.Tuning nutsdb.nutsdb_DefaultOptions |} with
       | inl d =>
         ({| nutsdb.db := Some d;
             nutsdb.bucketName :=
               if decide (nutsdb.BucketName options = ""%string)
               then nutsdb.BucketName (nutsdb.DefaultOptions pkg)
               else nutsdb.BucketName options;
             nutsdb.codec :=
               match nutsdb.Codec options with
               | Some c => Some c
               | None => nutsdb.Codec (nutsdb.DefaultOptions pkg)
               end |}, None)
       | inr err => (nutsdb.zero_Store, Some err)
       end).
Proof.
  split; intros pkg options.
  - unfold pebble.NewStore.
    destruct (pebble_setDefaults_fields pkg options) as (-> & -> & ->).
    by destruct (pebble.pebble_Open _).
  - unfold nutsdb.NewStore, nutsdb.engineOptions.
    destruct (nutsdb_setDefaults_fields pkg options) as (-> & -> & -> & -> & ->).
    by destruct (nutsdb.nutsdb_Open _).
Qed.

(** X5.  Defaulting leaves no field unset: when [DefaultOptions] has a
    non-empty path and bucket name, non-zero numbers and a codec, so have
    the options that [NewStore] goes on with, whatever the caller passed. *)
Theorem setDefaults_leaves_no_field_unset :
  (∀ (pkg : pebble.Package V) options,
     pebble.Path (pebble.DefaultOptions pkg) ≠ ""%string →
     is_Some (pebble.Codec (pebble.DefaultOptions pkg)) →
     pebble.Path (pebble.setDefaults pkg options) ≠ ""%string ∧
     is_Some (pebble.Codec (pebble.setDefaults pkg options))) ∧
  (∀ (pkg : nutsdb.Package V) options,
     nutsdb.BucketName (nutsdb.DefaultOptions pkg) ≠ ""%string →
     nutsdb.Path (nutsdb.DefaultOptions pkg) ≠ ""%string →
     nutsdb.NodeNum (nutsdb.DefaultOptions pkg) ≠ 0 →
     is_Some (nutsdb.Codec (nutsdb.DefaultOptions pkg)) →
     nutsdb.BucketName (nutsdb.setDefaults pkg options) ≠ ""%string ∧
     nutsdb.Path (nutsdb.setDefaults pkg options) ≠ ""%string ∧
     nutsdb.NodeNum (nutsdb.setDefaults pkg options) ≠ 0 ∧
     is_Some (nutsdb.Codec (nutsdb.setDefaults pkg options))) ∧
  (∀ (pkg : ristretto.Package V) options,
     ristretto.NumCounters (ristretto.DefaultOptions pkg) ≠ 0 →
     ristretto.MaxCost (ristretto.DefaultOptions pkg) ≠ 0 →
     ristretto.BufferItems (ristretto.DefaultOptions pkg) ≠ 0 →
     is_Some (ristretto.Codec (ristretto.DefaultOptions pkg)) →
     ristretto.NumCounters (ristretto.setDefaults pkg options) ≠ 0 ∧
     ristretto.MaxCost (ristretto.setDefaults pkg options) ≠ 0 ∧
     ristretto.BufferItems (ristretto.setDefaults pkg options) ≠ 0 ∧
     is_Some (ristretto.Codec (ristretto.setDefaults pkg options))).
Proof.
  split; [|split]; intros pkg options.
  - intros Hpath Hcodec.
    destruct (pebble_setDefaults_fields pkg options) as (-> & _ & ->).
    split.
    + by destruct (decide (pebble.Path options = ""%string)).
    + by destruct (pebble.Codec options).
  - intros Hbucket Hpath Hnode Hcodec.
    destruct (nutsdb_setDefaults_fields pkg options) as (-> & -> & _ & -> & ->).
    repeat split.
    + by destruct (decide (nutsdb.BucketName options = ""%string)).
    + by destruct (decide (nutsdb.Path options = ""%string)).
    + destruct (nutsdb.NodeNum options =? 0) eqn:Hz; [done|].
      by apply Z.eqb_neq.
    + by destruct (nutsdb.Codec options).
  - intros Hn Hm Hb Hcodec.
    destruct (ristretto_setDefaults_fields pkg options) as (-> & -> & -> & _ & ->).
    repeat split; try done.
    by destruct (ristretto.Codec options).
Qed.

End Constructors.

(** ** Sequences of calls on one store *)

Section Runs.
Context {V S : Type}.
Variable Set_ : S → string → iface V → outcome (S * option error).
Variable Get_ : S → string → iface V → outcome (S * iface V * (bool * option error)).
Variable Delete_ : S → string → outcome (S * option error).
Variable Close_ : S → outcome (S * option error).

(** What every call keeps, a run keeps. *)
Lemma run_keeps (P : S → S → Prop) :
  (∀ s, P s s) → (∀ s1 s2 s3, P s1 s2 → P s2 s3 → P s1 s3) →
  (∀ c s s' r,
     calls.perform Set_ Get_ Delete_ Close_ c s = Done (s', r) → P s s') →
  ∀ cs s s' rs,
    calls.run Set_ Get_ Delete_ Close_ cs s = Done (s', rs) →
    P s s' ∧ length rs = length cs.
Proof.
  intros Hrefl Htrans Hstep cs.
  induction cs as [|c cs IH]; intros s s' rs; simpl.
  - by intros [= <- <-].
  - destruct (calls.perform _ _ _ _ c s) as [[s1 r]|] eqn:Hc; [simpl|done].
    destruct (calls.run _ _ _ _ cs s1) as [[s2 rs2]|] eqn:Hcs; [simpl|done].
    intros [= <- <-]. destruct (IH _ _ _ Hcs) as [HP Hlen].
    split; [|by simpl; rewrite Hlen].
    eapply Htrans; [by eapply Hstep|done].
Qed.

(** When every call returns from a store that satisfies [I], into one that
    satisfies [I], so does a run. *)
Lemma run_returns (I : S → Prop) :
  (∀ c s, I s →
     ∃ s' r, calls.perform Set_ Get_ Delete_ Close_ c s = Done (s', r) ∧ I s') →
  ∀ cs s, I s →
    ∃ s' rs, calls.run Set_ Get_ Delete_ Close_ cs s = Done (s', rs) ∧ I s'.
Proof.
  intros Hstep cs. induction cs as [|c cs IH]; intros s HI; simpl.
  - by exists s, [].
  - destruct (Hstep c s HI) as (s1 & r & -> & HI1). simpl.
    destruct (IH s1 HI1) as (s2 & rs & -> & HI2). simpl.
    by exists s2, (r :: rs).
Qed.

End Runs.

Section Sessions.
Context {V : Type}.
Context {PebbleDB Closer : Type} {PE : pebble.Engine PebbleDB Closer}.
Context {NutsDB Tx T : Type} {NE : nutsdb.Engine NutsDB Tx T}.
Context {Cache : Type} {RE : ristretto.Engine Cache}.

(** A call changes nothing of a store but the state of its engine. *)
Lemma pebble_perform_config (c : calls.call V) (s s' : pebble.Store V PebbleDB) r :
  calls.perform pebble.Store_Set pebble.Store_Get pebble.Store_Delete
    pebble.Store_Close c s = Done (s', r) →
  pebble.writeSync s' = pebble.writeSync s ∧
  pebble.codec s' = pebble.codec s ∧
  (is_Some (pebble.db s) → is_Some (pebble.db s')).
Proof.
  destruct c; simpl;
    unfold pebble.Store_Set, pebble.Store_Get, pebble.Store_Delete,
      pebble.Store_Close, mbind, outcome_bind, deref;
    intros Hc; repeat case_match; simplify_eq/=; eauto.
Qed.

Lemma nutsdb_perform_config (c : calls.call V) (s s' : nutsdb.Store V NutsDB) r :
  calls.perform nutsdb.Store_Set nutsdb.Store_Get nutsdb.Store_Delete
    nutsdb.Store_Close c s = Done (s', r) →
  nutsdb.bucketName s' = nutsdb.bucketName s ∧
  nutsdb.codec s' = nutsdb.codec s ∧
  (is_Some (nutsdb.db s) → is_Some (nutsdb.db s')).
Proof.
  destruct c; simpl;
    unfold nutsdb.Store_Set, nutsdb.Store_Get, nutsdb.Store_Delete,
      nutsdb.Store_Close, mbind, outcome_bind, deref;
    intros Hc; repeat case_match; simplify_eq/=; eauto.
Qed.

Lemma ristretto_perform_config (c : calls.call V) (s s' : ristretto.Store V Cache) r :
  calls.perform ristretto.Store_Set ristretto.Store_Get ristretto.Store_Delete
    ristretto.Store_Close c s = Done (s', r) →
  ristretto.codec s' = ristretto.codec s ∧
  (is_Some (ristretto.db s) → is_Some (ristretto.db s')).
Proof.
  destruct c; simpl;
    unfold ristretto.Store_Set, ristretto.Store_Get, ristretto.Store_Delete,
      ristretto.Store_Close, mbind, outcome_bind, deref;
    intros Hc; repeat case_match; simplify_eq/=; eauto.
Qed.

(** On a ready store every call returns. *)
Lemma pebble_perform_returns (c : calls.call V) (s : pebble.Store V PebbleDB) :
  pebble_ready s →
  ∃ s' r, calls.perform pebble.Store_Set pebble.Store_Get pebble.Store_Delete
            pebble.Store_Close c s = Done (s', r).
Proof.
  intros [[d Hd] [co Hco]].
  destruct c; simpl;
    unfold pebble.Store_Set, pebble.Store_Get, pebble.Store_Delete,
      pebble.Store_Close, mbind, outcome_bind, deref; rewrite ?Hd, ?Hco;
    repeat case_match; simplify_eq/=; eauto.
Qed.

Lemma nutsdb_perform_returns (c : calls.call V) (s : nutsdb.Store V NutsDB) :
  nutsdb_ready s →
  ∃ s' r, calls.perform nutsdb.Store_Set nutsdb.Store_Get nutsdb.Store_Delete
            nutsdb.Store_Close c s = Done (s', r).
Proof.
  intros [[d Hd] [co Hco]].
  destruct c; simpl;
    unfold nutsdb.Store_Set, nutsdb.Store_Get, nutsdb.Store_Delete,
      nutsdb.Store_Close, mbind, outcome_bind, deref; rewrite ?Hd, ?Hco;
    repeat case_match; simplify_eq/=; eauto.
Qed.

Lemma ristretto_perform_returns (c : calls.call V) (s : ristretto.Store V Cache) :
  ristretto_ready s →
  ∃ s' r, calls.perform ristretto.Store_Set ristretto.Store_Get
            ristretto.Store_Delete ristretto.Store_Close c s = Done (s', r).
Proof.
  intros [[d Hd] [co Hco]].
  destruct c; simpl;
    unfold ristretto.Store_Set, ristretto.Store_Get, ristretto.Store_Delete,
      ristretto.Store_Close, mbind, outcome_bind, deref; rewrite ?Hd, ?Hco;
    repeat case_match; simplify_eq/=; eauto.
Qed.

(** The store of a [NewStore] that returned no error. *)
Lemma pebble_NewStore_nil (pkg pkg' : pebble.Package V) options
    (s : pebble.Store V PebbleDB) :
  pebble.NewStore pkg options = (pkg', (s, None)) →
  is_Some (pebble.db s) ∧
  pebble.writeSync s = pebble.WriteSync options ∧
  pebble.codec s = match pebble.Codec options with
                   | Some c => Some c
                   | None => pebble.Codec (pebble.DefaultOptions pkg)
                   end.
Proof.
  unfold pebble.NewStore.
  destruct (pebble_setDefaults_fields pkg options) as (_ & Hsync & Hcodec).
  destruct (pebble.pebble_Open _) as [d|]; [|done].
  intros [= _ <-]. simpl. by rewrite Hsync, Hcodec.
Qed.

Lemma nutsdb_NewStore_nil (pkg pkg' : nutsdb.Package V) options
    (s : nutsdb.Store V NutsDB) :
  nutsdb.NewStore pkg options = (pkg', (s, None)) →
  is_Some (nutsdb.db s) ∧
  nutsdb.codec s = match nutsdb.Codec options with
                   | Some c => Some c
                   | None => nutsdb.Codec (nutsdb.DefaultOptions pkg)
                   end.
Proof.
  unfold nutsdb.NewStore.
  destruct (nutsdb_setDefaults_fields pkg options) as (_ & _ & _ & _ & Hcodec).
  destruct (nutsdb.nutsdb_Open _) as [d|]; [|done].
  intros [= _ <-]. simpl. by rewrite Hcodec.
Qed.

Lemma ristretto_NewStore_nil (pkg pkg' : ristretto.Package V) options
    (s : ristretto.Store V Cache) :
  ristretto.NewStore pkg options = (pkg', (s, None)) →
  is_Some (ristretto.db s) ∧
  ristretto.codec s = match ristretto.Codec options with
                      | Some c => Some c
                      | None => ristretto.Codec (ristretto.DefaultOptions pkg)
                      end.
Proof.
  unfold ristretto.NewStore.
  destruct (ristretto_setDefaults_fields pkg options) as (_ & _ & _ & _ & Hcodec).
  destruct (ristretto.NewCache _) as [d|]; [|done].
  intros [= _ <-]. simpl. by rewrite Hcodec.
Qed.

(** X6.  A pebble store made with [WriteSync] set hands the engine
    [&WriteOptions{Sync: true}] on every write, and a nil [*WriteOptions]
    otherwise: after any calls on the store that [NewStore] returned, [Set]
    of a valid pair and [Delete] of a non-empty key return what the
    engine's write with these options returns. *)
Theorem pebble_WriteSync_reaches_every_write
    (pkg pkg' : pebble.Package V) options (s s1 : pebble.Store V PebbleDB)
    (cs : list (calls.call V)) rs :
  pebble.NewStore pkg options = (pkg', (s, None)) →
  calls.run pebble.Store_Set pebble.Store_Get pebble.Store_Delete
    pebble.Store_Close cs s = Done (s1, rs) →
  let wo := if pebble.WriteSync options
            then Some {| pebble.Sync := true |} else None in
  (∀ k v c d data,
     k ≠ ""%string → is_nil v = false →
     pebble.codec s1 = Some c → pebble.db s1 = Some d →
     encoding.Marshal c v = inl data →
     pebble.Store_Set s1 k v
       = Done (pebble.with_db s1 (pebble.db_Set d (bytes_of k) data wo).1,
               (pebble.db_Set d (bytes_of k) data wo).2)) ∧
  (∀ k d,
     k ≠ ""%string → pebble.db s1 = Some d →
     pebble.Store_Delete s1 k
       = Done (pebble.with_db s1 (pebble.db_Delete d (bytes_of k) wo).1,
               (pebble.db_Delete d (bytes_of k) wo).2)).
Proof.
  intros Hnew Hrun wo.
  apply pebble_NewStore_nil in Hnew as (_ & Hsync & _).
  apply (run_keeps _ _ _ _
           (λ s s', pebble.writeSync s' = pebble.writeSync s)) in Hrun
    as [Hkept _]; [|done|congruence|].
  2:{ intros c s2 s3 r Hc. by apply pebble_perform_config in Hc as (? & _). }
  assert (pebble.writeOptions s1 = wo) as Hwo.
  { unfold pebble.writeOptions, wo. by rewrite Hkept, Hsync. }
  split.
  - intros k v c d data Hk Hv Hc Hd Hm. unfold pebble.Store_Set.
    rewrite (CheckKeyAndValue_ok k v Hk Hv), Hc. simpl. rewrite Hm, Hd. simpl.
    rewrite Hwo. by destruct (pebble.db_Set d (bytes_of k) data wo).
  - intros k d Hk Hd. unfold pebble.Store_Delete.
    rewrite (CheckKey_nonempty k Hk), Hd. simpl.
    rewrite Hwo. by destruct (pebble.db_Delete d (bytes_of k) wo).
Qed.

(** X7.  A store that [NewStore] returned without an error, from options
    or defaults that name a codec, has its engine and its codec attached
    and keeps them: every sequence of [Set], [Get], [Delete] and [Close]
    calls on it returns, one result per call, and leaves a store with the
    same codec that is ready for the next call. *)
Theorem a_store_from_NewStore_stays_ready :
  (∀ (pkg pkg' : pebble.Package V) options (s : pebble.Store V PebbleDB),
     pebble.NewStore pkg options = (pkg', (s, None)) →
     is_Some (pebble.Codec options) ∨
       is_Some (pebble.Codec (pebble.DefaultOptions pkg)) →
     ∀ cs, ∃ s1 rs,
       calls.run pebble.Store_Set pebble.Store_Get pebble.Store_Delete
         pebble.Store_Close cs s = Done (s1, rs) ∧
       pebble_ready s1 ∧ pebble.codec s1 = pebble.codec s ∧
       length rs = length cs) ∧
  (∀ (pkg pkg' : nutsdb.Package V) options (s : nutsdb.Store V NutsDB),
     nutsdb.NewStore pkg options = (pkg', (s, None)) →
     is_Some (nutsdb.Codec options) ∨
       is_Some (nutsdb.Codec (nutsdb.DefaultOptions pkg)) →
     ∀ cs, ∃ s1 rs,
       calls.run nutsdb.Store_Set nutsdb.Store_Get nutsdb.Store_Delete
         nutsdb.Store_Close cs s = Done (s1, rs) ∧
       nutsdb_ready s1 ∧ nutsdb.codec s1 = nutsdb.codec s ∧
       length rs = length cs) ∧
  (∀ (pkg pkg' : ristretto.Package V) options (s : ristretto.Store V Cache),
     ristretto.NewStore pkg options = (pkg', (s, None)) →
     is_Some (ristretto.Codec options) ∨
       is_Some (ristretto.Codec (ristretto.DefaultOptions pkg)) →
     ∀ cs, ∃ s1 rs,
       calls.run ristretto.Store_Set ristretto.Store_Get ristretto.Store_Delete
         ristretto.Store_Close cs s = Done (s1, rs) ∧
       ristretto_ready s1 ∧ ristretto.codec s1 = ristretto.codec s ∧
       length rs = length cs).
Proof.
  split; [|split]; intros pkg pkg' options s Hnew Hcodec cs.
  - apply pebble_NewStore_nil in Hnew as (Hdb & _ & Hc).
    assert (pebble_ready s) as Hready.
    { split; [done|]. rewrite Hc.
      destruct (pebble.Codec options); [by eexists|]. by destruct Hcodec as [[]|]. }
    destruct (run_returns pebble.Store_Set pebble.Store_Get pebble.Store_Delete
                pebble.Store_Close
                (λ s', pebble_ready s' ∧ pebble.codec s' = pebble.codec s))
      with (cs := cs) (s := s) as (s1 & rs & Hrun & Hready1 & Hsame); [|done|].
    { intros c s2 [Hr2 Hc2].
      destruct (pebble_perform_returns c s2 Hr2) as (s3 & r & Hstep).
      exists s3, r. split; [done|].
      apply pebble_perform_config in Hstep as (_ & Hc3 & Hdb3).
      destruct Hr2 as [Hdb2 Hco2].
      repeat split; [by apply Hdb3 | by rewrite Hc3 | congruence]. }
    exists s1, rs. split; [done|]. split; [done|]. split; [done|].
    by destruct (run_keeps _ _ _ _ (λ _ _, True) (λ _, I)
                  (λ _ _ _ _ _, I) (λ _ _ _ _ _, I) _ _ _ _ Hrun).
  - apply nutsdb_NewStore_nil in Hnew as (Hdb & Hc).
    assert (nutsdb_ready s) as Hready.
    { split; [done|]. rewrite Hc.
      destruct (nutsdb.Codec options); [by eexists|]. by destruct Hcodec as [[]|]. }
    destruct (run_returns nutsdb.Store_Set nutsdb.Store_Get nutsdb.Store_Delete
                nutsdb.Store_Close
                (λ s', nutsdb_ready s' ∧ nutsdb.codec s' = nutsdb.codec s))
      with (cs := cs) (s := s) as (s1 & rs & Hrun & Hready1 & Hsame); [|done|].
    { intros c s2 [Hr2 Hc2].
      destruct (nutsdb_perform_returns c s2 Hr2) as (s3 & r & Hstep).
      exists s3, r. split; [done|].
      apply nutsdb_perform_config in Hstep as (_ & Hc3 & Hdb3).
      destruct Hr2 as [Hdb2 Hco2].
      repeat split; [by apply Hdb3 | by rewrite Hc3 | congruence]. }
    exists s1, rs. split; [done|]. split; [done|]. split; [done|].
    by destruct (run_keeps _ _ _ _ (λ _ _, True) (λ _, I)
                  (λ _ _ _ _ _, I) (λ _ _ _ _ _, I) _ _ _ _ Hrun).
  - apply ristretto_NewStore_nil in Hnew as (Hdb & Hc).
    assert (ristretto_ready s) as Hready.
    { split; [done|]. rewrite Hc.
      destruct (ristretto.Codec options); [by eexists|]. by destruct Hcodec as [[]|]. }
    destruct (run_returns ristretto.Store_Set ristretto.Store_Get
                ristretto.Store_Delete ristretto.Store_Close
                (λ s', ristretto_ready s' ∧ ristretto.codec s' = ristretto.codec s))
      with (cs := cs) (s := s) as (s1 & rs & Hrun & Hready1 & Hsame); [|done|].
    { intros c s2 [Hr2 Hc2].
      destruct (ristretto_perform_returns c s2 Hr2) as (s3 & r & Hstep).
      exists s3, r. split; [done|].
      apply ristretto_perform_config in Hstep as (Hc3 & Hdb3).
      destruct Hr2 as [Hdb2 Hco2].
      repeat split; [by apply Hdb3 | by rewrite Hc3 | congruence]. }
    exists s1, rs. split; [done|]. split; [done|]. split; [done|].
    by destruct (run_keeps _ _ _ _ (λ _ _, True) (λ _, I)
                  (λ _ _ _ _ _, I) (λ _ _ _ _ _, I) _ _ _ _ Hrun).
Qed.

End Sessions.

(** ** The records behind a store *)

(** Distinct keys are filed under distinct engine keys. *)
Lemma bytes_of_inj (k k' : string) : bytes_of k = bytes_of k' → k = k'.
Proof.
  unfold bytes_of. intros Heq.
  rewrite <- (string_of_list_byte_of_string k), Heq.
  apply string_of_list_byte_of_string.
Qed.

Section PebbleRecords.
Context {V DB Closer : Type} `{pebble.Engine DB Closer}.
Context (contents : DB → gmap bytes bytes) (HC : pebble.Contract contents).
Implicit Types (s : pebble.Store V DB) (k : string) (v : iface V).

Lemma pebble_Set_records s s1 k v :
  pebble.Store_Set s k v = Done (s1, None) →
  ∃ c data,
    pebble.codec s = Some c ∧ encoding.Marshal c v = inl data ∧
    pebble.stored contents s1 = <[bytes_of k := data]> (pebble.stored contents s).
Proof.
  intros Hset.
  apply pebble_Set_nil_inv in Hset
    as (c & d & d' & data & Hc & Hd & Hk & Hv & Hm & Hset & ->).
  exists c, data. split; [done|]. split; [done|].
  unfold pebble.stored at 2. rewrite Hd.
  by apply (pebble.Set_stores _ HC) in Hset.
Qed.

Lemma pebble_Delete_records s s1 k :
  pebble.Store_Delete s k = Done (s1, None) →
  pebble.stored contents s1 = delete (bytes_of k) (pebble.stored contents s).
Proof.
  intros Hdel.
  apply pebble_Delete_nil_inv in Hdel as (d & d' & Hd & Hk & Hdel & ->).
  unfold pebble.stored at 2. rewrite Hd.
  by apply (pebble.Delete_removes _ HC) in Hdel.
Qed.

Lemma pebble_Get_answer s c k v :
  is_Some (pebble.db s) → pebble.codec s = Some c →
  k ≠ ""%string → is_nil v = false →
  ∃ s', let a := answer c (pebble.stored contents s !! bytes_of k) v in
        pebble.Store_Get s k v = Done (s', a.1, a.2).
Proof.
  intros [d Hd] Hc Hk Hv. unfold pebble.stored. rewrite Hd.
  destruct (contents d !! bytes_of k) as [data|] eqn:Hrec; simpl.
  - destruct (pebble.Get_present _ HC d _ data Hrec) as (d' & closer & Hget).
    rewrite (pebble_Get_found s d d' k v data closer Hd Hk Hv Hget), Hc.
    simpl. eauto.
  - destruct (pebble.Get_absent _ HC d _ Hrec) as (d' & Hget & _).
    rewrite (pebble_Get_not_found s d d' k v Hd Hk Hv Hget). eauto.
Qed.

(** A store whose record under [k'] is the same answers [Get] of [k'] the
    same. *)
Lemma pebble_Get_same_record s s1 c k' v :
  is_Some (pebble.db s) → is_Some (pebble.db s1) →
  pebble.codec s = Some c → pebble.codec s1 = Some c →
  k' ≠ ""%string → is_nil v = false →
  pebble.stored contents s1 !! bytes_of k' = pebble.stored contents s !! bytes_of k' →
  ∃ s2 s3 v' res,
    pebble.Store_Get s k' v = Done (s2, v', res) ∧
    pebble.Store_Get s1 k' v = Done (s3, v', res).
Proof.
  intros Hd Hd1 Hc Hc1 Hk Hv Hsame.
  destruct (pebble_Get_answer s c k' v Hd Hc Hk Hv) as (s2 & Hget).
  destruct (pebble_Get_answer s1 c k' v Hd1 Hc1 Hk Hv) as (s3 & Hget1).
  rewrite Hsame in Hget1. do 4 eexists. split; [exact Hget | exact Hget1].
Qed.

Lemma pebble_other_keys s s1 c k k' x v :
  k' ≠ k →
  pebble.Store_Set s k x = Done (s1, None) ∨
    pebble.Store_Delete s k = Done (s1, None) →
  pebble.codec s = Some c → k' ≠ ""%string → is_nil v = false →
  ∃ s2 s3 v' res,
    pebble.Store_Get s k' v = Done (s2, v', res) ∧
    pebble.Store_Get s1 k' v = Done (s3, v', res).
Proof.
  intros Hne Hcall Hc Hk Hv.
  assert (bytes_of k ≠ bytes_of k') as Hkey
    by (intros Heq; by apply bytes_of_inj in Heq).
  destruct Hcall as [Hset|Hdel].
  - pose proof (pebble_Set_records s s1 k x Hset) as (c' & data & _ & _ & Hrec).
    apply pebble_Set_nil_inv in Hset as (? & d & d' & ? & _ & Hd & _ & _ & _ & _ & ->).
    apply (pebble_Get_same_record s _ c k' v); try done; [by eexists..|].
    by rewrite Hrec, lookup_insert_ne.
  - pose proof (pebble_Delete_records s s1 k Hdel) as Hrec.
    apply pebble_Delete_nil_inv in Hdel as (d & d' & Hd & _ & _ & ->).
    apply (pebble_Get_same_record s _ c k' v); try done; [by eexists..|].
    by rewrite Hrec, lookup_delete_ne.
Qed.

End PebbleRecords.

Section NutsdbRecords.
Context {V DB Tx T : Type} `{nutsdb.Engine DB Tx T}.
Context (contents : DB → gmap (string * bytes) bytes)
        (view : Tx → gmap (string * bytes) bytes)
        (HC : nutsdb.Contract contents view).
Implicit Types (s : nutsdb.Store V DB) (k : string) (v : iface V).

Lemma nutsdb_Set_records s s1 k v :
  nutsdb.Store_Set s k v = Done (s1, None) →
  ∃ c data,
    nutsdb.codec s = Some c ∧ encoding.Marshal c v = inl data ∧
    nutsdb.stored contents s1
      = <[nutsdb.key_of s k := data]> (nutsdb.stored contents s).
Proof.
  intros Hset.
  apply nutsdb_Set_nil_inv in Hset
    as (c & d & d' & data & Hc & Hd & Hk & Hv & Hm & Hup & ->).
  exists c, data. split; [done|]. split; [done|].
  unfold nutsdb.stored at 2. rewrite Hd.
  apply (nutsdb_Update_nil contents view HC) in Hup
    as (tx & tx' & Hview & Hput & Hcont).
  apply (nutsdb.Put_stores _ _ HC) in Hput.
  rewrite nutsdb_stored_with_db, Hcont, Hput. by rewrite Hview.
Qed.

Lemma nutsdb_Delete_records s s1 k :
  nutsdb.Store_Delete s k = Done (s1, None) →
  nutsdb.stored contents s1
    = delete (nutsdb.key_of s k) (nutsdb.stored contents s).
Proof.
  intros Hdel.
  apply nutsdb_Delete_nil_inv in Hdel as (d & d' & Hd & Hk & Hup & ->).
  unfold nutsdb.stored at 2. rewrite Hd.
  apply (nutsdb_Update_nil contents view HC) in Hup
    as (tx & tx' & Hview & Hdel & Hcont).
  apply (nutsdb.Delete_removes _ _ HC) in Hdel.
  rewrite nutsdb_stored_with_db, Hcont, Hdel. by rewrite Hview.
Qed.

Lemma nutsdb_Get_answer s c k v :
  is_Some (nutsdb.db s) → nutsdb.codec s = Some c →
  k ≠ ""%string → is_nil v = false →
  ∃ s', let a := answer c (nutsdb.stored contents s !! nutsdb.key_of s k) v in
        nutsdb.Store_Get s k v = Done (s', a.1, a.2).
Proof.
  intros [d Hd] Hc Hk Hv. unfold nutsdb.stored. rewrite Hd.
  destruct (contents d !! nutsdb.key_of s k) as [data|] eqn:Hrec; simpl.
  - destruct (nutsdb_view_present contents view HC s d k data Hrec)
      as (d' & Hview & _).
    rewrite (nutsdb_Get_view_data s d d' k v data Hd Hk Hv Hview), Hc.
    simpl. eauto.
  - destruct (nutsdb_view_absent contents view HC s d k Hrec)
      as (d' & err & Hview & _).
    rewrite (nutsdb_Get_view_error s d d' k v None err Hd Hk Hv Hview). eauto.
Qed.

Lemma nutsdb_Get_same_record s s1 c k' v :
  is_Some (nutsdb.db s) → is_Some (nutsdb.db s1) →
  nutsdb.codec s = Some c → nutsdb.codec s1 = Some c →
  nutsdb.bucketName s1 = nutsdb.bucketName s →
  k' ≠ ""%string → is_nil v = false →
  nutsdb.stored contents s1 !! nutsdb.key_of s k'
    = nutsdb.stored contents s !! nutsdb.key_of s k' →
  ∃ s2 s3 v' res,
    nutsdb.Store_Get s k' v = Done (s2, v', res) ∧
    nutsdb.Store_Get s1 k' v = Done (s3, v', res).
Proof.
  intros Hd Hd1 Hc Hc1 Hb Hk Hv Hsame.
  destruct (nutsdb_Get_answer s c k' v Hd Hc Hk Hv) as (s2 & Hget).
  destruct (nutsdb_Get_answer s1 c k' v Hd1 Hc1 Hk Hv) as (s3 & Hget1).
  unfold nutsdb.key_of in *. rewrite Hb, Hsame in Hget1.
  do 4 eexists. split; [exact Hget | exact Hget1].
Qed.

Lemma nutsdb_other_keys s s1 c k k' x v :
  k' ≠ k →
  nutsdb.Store_Set s k x = Done (s1, None) ∨
    nutsdb.Store_Delete s k = Done (s1, None) →
  nutsdb.codec s = Some c → k' ≠ ""%string → is_nil v = false →
  ∃ s2 s3 v' res,
    nutsdb.Store_Get s k' v = Done (s2, v', res) ∧
    nutsdb.Store_Get s1 k' v = Done (s3, v', res).
Proof.
  intros Hne Hcall Hc Hk Hv.
  assert (nutsdb.key_of s k ≠ nutsdb.key_of s k') as Hkey.
  { unfold nutsdb.key_of. intros [= Heq]. by apply bytes_of_inj in Heq. }
  destruct Hcall as [Hset|Hdel].
  - pose proof (nutsdb_Set_records s s1 k x Hset) as (c' & data & _ & _ & Hrec).
    apply nutsdb_Set_nil_inv in Hset as (? & d & d' & ? & _ & Hd & _ & _ & _ & _ & ->).
    apply (nutsdb_Get_same_record s _ c k' v); try done; [by eexists..|].
    by rewrite Hrec, lookup_insert_ne.
  - pose proof (nutsdb_Delete_records s s1 k Hdel) as Hrec.
    apply nutsdb_Delete_nil_inv in Hdel as (d & d' & Hd & _ & _ & ->).
    apply (nutsdb_Get_same_record s _ c k' v); try done; [by eexists..|].
    by rewrite Hrec, lookup_delete_ne.
Qed.

End NutsdbRecords.

Section RistrettoRecords.
Context {V Cache : Type} `{ristretto.Engine Cache}.
Context (contents : Cache → gmap string ristretto.item)
        (HC : ristretto.Contract contents).
Implicit Types (s : ristretto.Store V Cache) (k : string) (v : iface V).

Lemma ristretto_Set_records s s1 k v :
  ristretto.Store_Set s k v = Done (s1, None) →
  ∃ c data,
    ristretto.codec s = Some c ∧ encoding.Marshal c v = inl data ∧
    ristretto.stored contents s1
      = <[k := ristretto.IBytes data]> (ristretto.stored contents s).
Proof.
  intros Hset.
  apply ristretto_Set_nil_inv in Hset
    as (c & d & d' & data & Hc & Hd & Hk & Hv & Hm & Hset & ->).
  exists c, data. split; [done|]. split; [done|].
  unfold ristretto.stored at 2. rewrite Hd.
  by apply (ristretto.Set_admitted _ HC) in Hset.
Qed.

Lemma ristretto_Delete_records s s1 k :
  ristretto.Store_Delete s k = Done (s1, None) →
  ristretto.stored contents s1 = delete k (ristretto.stored contents s).
Proof.
  intros Hdel.
  apply ristretto_Delete_nil_inv in Hdel as (d & Hd & Hk & ->).
  unfold ristretto.stored at 2. rewrite Hd.
  by rewrite ristretto_stored_with_db, (ristretto.Del_removes _ HC).
Qed.

Lemma ristretto_Get_answer s c k v :
  is_Some (ristretto.db s) → ristretto.codec s = Some c →
  k ≠ ""%string → is_nil v = false →
  ∃ s', let a := ristretto_answer c (ristretto.stored contents s !! k) v in
        ristretto.Store_Get s k v = Done (s', a.1, a.2).
Proof.
  intros [d Hd] Hc Hk Hv. unfold ristretto.stored. rewrite Hd.
  destruct (contents d !! k) as [[|data|typ]|] eqn:Hrec; simpl.
  - destruct (ristretto.Get_hit _ HC d k _ Hrec) as (d' & Hget).
    rewrite (ristretto_Get_nil s d d' k v true Hd Hk Hv Hget). eauto.
  - destruct (ristretto.Get_hit _ HC d k _ Hrec) as (d' & Hget).
    rewrite (ristretto_Get_bytes s d d' k v data Hd Hk Hv Hget), Hc.
    simpl. eauto.
  - destruct (ristretto.Get_hit _ HC d k _ Hrec) as (d' & Hget).
    rewrite (ristretto_Get_other s d d' k v typ Hd Hk Hv Hget). eauto.
  - destruct (ristretto.Get_miss _ HC d k Hrec) as (d' & value & Hget & _).
    rewrite (ristretto_Get_miss s d d' k v value Hd Hk Hv Hget). eauto.
Qed.

Lemma ristretto_Get_same_record s s1 c k' v :
  is_Some (ristretto.db s) → is_Some (ristretto.db s1) →
  ristretto.codec s = Some c → ristretto.codec s1 = Some c →
  k' ≠ ""%string → is_nil v = false →
  ristretto.stored contents s1 !! k' = ristretto.stored contents s !! k' →
  ∃ s2 s3 v' res,
    ristretto.Store_Get s k' v = Done (s2, v', res) ∧
    ristretto.Store_Get s1 k' v = Done (s3, v', res).
Proof.
  intros Hd Hd1 Hc Hc1 Hk Hv Hsame.
  destruct (ristretto_Get_answer s c k' v Hd Hc Hk Hv) as (s2 & Hget).
  destruct (ristretto_Get_answer s1 c k' v Hd1 Hc1 Hk Hv) as (s3 & Hget1).
  rewrite Hsame in Hget1. do 4 eexists. split; [exact Hget | exact Hget1].
Qed.

Lemma ristretto_other_keys s s1 c k k' x v :
  k' ≠ k →
  ristretto.Store_Set s k x = Done (s1, None) ∨
    ristretto.Store_Delete s k = Done (s1, None) →
  ristretto.codec s = Some c → k' ≠ ""%string → is_nil v = false →
  ∃ s2 s3 v' res,
    ristretto.Store_Get s k' v = Done (s2, v', res) ∧
    ristretto.Store_Get s1 k' v = Done (s3, v', res).
Proof.
  intros Hne Hcall Hc Hk Hv.
  destruct Hcall as [Hset|Hdel].
  - pose proof (ristretto_Set_records s s1 k x Hset) as (c' & data & _ & _ & Hrec).
    apply ristretto_Set_nil_inv in Hset as (? & d & d' & ? & _ & Hd & _ & _ & _ & _ & ->).
    apply (ristretto_Get_same_record s _ c k' v); try done; [by eexists..|].
    by rewrite Hrec, lookup_insert_ne.
  - pose proof (ristretto_Delete_records s s1 k Hdel) as Hrec.
    apply ristretto_Delete_nil_inv in Hdel as (d & Hd & _ & ->).
    apply (ristretto_Get_same_record s _ c k' v); try done; [by eexists..|].
    by rewrite Hrec, lookup_delete_ne.
Qed.

End RistrettoRecords.

(** ** The conformance test *)

Section TestStoreRuns.
Context {S : Type}.
Variable Set_ : S → string → iface mem.Foo → outcome (S * option error).
Variable Get_ : S → string → iface mem.Foo
                → outcome (S * iface mem.Foo * (bool * option error)).
Variable Delete_ : S → string → outcome (S * option error).
Variable ready without_record with_record : S → Prop.
Variable key : string.


End TestStoreRuns.

Section PebbleWrites.
Context {V DB Closer : Type} `{pebble.Engine DB Closer}.
Context (Haccepts : pebble_accepts_writes).
Implicit Types (s : pebble.Store V DB) (k : string) (v : iface V).

Lemma pebble_Set_accepted s c d k v data :
  pebble.codec s = Some c → pebble.db s = Some d →
  k ≠ ""%string → is_nil v = false → encoding.Marshal c v = inl data →
  ∃ d', pebble.Store_Set s k v = Done (pebble.with_db s d', None).
Proof.
  intros Hc Hd Hk Hv Hm. unfold pebble.Store_Set.
  rewrite (CheckKeyAndValue_ok k v Hk Hv), Hc. simpl. rewrite Hm, Hd. simpl.
  destruct Haccepts as [Hset _].
  specialize (Hset d (bytes_of k) data (pebble.writeOptions s)).
  destruct (pebble.db_Set _ _ _ _) as [d' err]. simpl in Hset. subst err.
  by exists d'.
Qed.


End PebbleWrites.

Section NutsdbWrites.
Context {V DB Tx T : Type} `{nutsdb.Engine DB Tx T}.
Context (contents : DB → gmap (string * bytes) bytes)
        (view : Tx → gmap (string * bytes) bytes)
        (HC : nutsdb.Contract contents view)
        (Haccepts : nutsdb_accepts_writes).
Implicit Types (s : nutsdb.Store V DB) (k : string) (v : iface V).

Lemma nutsdb_Set_accepted s c d k v data :
  nutsdb.codec s = Some c → nutsdb.db s = Some d →
  k ≠ ""%string → is_nil v = false → encoding.Marshal c v = inl data →
  ∃ d', nutsdb.Store_Set s k v = Done (nutsdb.with_db s d', None).
Proof.
  intros Hc Hd Hk Hv Hm. unfold nutsdb.Store_Set.
  rewrite (CheckKeyAndValue_ok k v Hk Hv), Hc. simpl. rewrite Hm, Hd. simpl.
  destruct (nutsdb.Update_runs _ _ HC d
              (λ tx, nutsdb.tx_Put tx (nutsdb.bucketName s) (bytes_of k) data 0))
    as (tx & d' & _ & -> & _).
  destruct Haccepts as [Hput _]. simpl. rewrite Hput. by exists d'.
Qed.


End NutsdbWrites.

Section RistrettoWrites.
Context {V Cache : Type} `{ristretto.Engine Cache}.
Context (Haccepts : ristretto_accepts_writes).
Implicit Types (s : ristretto.Store V Cache) (k : string) (v : iface V).

Lemma ristretto_Set_accepted s c d k v data :
  ristretto.codec s = Some c → ristretto.db s = Some d →
  k ≠ ""%string → is_nil v = false → encoding.Marshal c v = inl data →
  ∃ d', ristretto.Store_Set s k v = Done (ristretto.with_db s d', None).
Proof.
  intros Hc Hd Hk Hv Hm.
  rewrite (ristretto_Set_marshalled s c d k v data Hc Hd Hk Hv Hm).
  rewrite Haccepts. eauto.
Qed.

End RistrettoWrites.

Section PebbleTestStore.
Context {DB Closer : Type} `{pebble.Engine DB Closer}.
Context (contents : DB → gmap bytes bytes) (HC : pebble.Contract contents)
        (Haccepts : pebble_accepts_writes).


End PebbleTestStore.

Section NutsdbTestStore.
Context {DB Tx T : Type} `{nutsdb.Engine DB Tx T}.
Context (contents : DB → gmap (string * bytes) bytes)
        (view : Tx → gmap (string * bytes) bytes)
        (HC : nutsdb.Contract contents view)
        (Haccepts : nutsdb_accepts_writes).


End NutsdbTestStore.

Section RistrettoTestStore.
Context {Cache : Type} `{ristretto.Engine Cache}.
Context (contents : Cache → gmap string ristretto.item)
        (HC : ristretto.Contract contents)
        (Haccepts : ristretto_accepts_writes).


End RistrettoTestStore.

(** ** The adapters as maps from keys to bytes *)

Section Records.
Context {V : Type}.
Context {PebbleDB Closer : Type} {PE : pebble.Engine PebbleDB Closer}.
Context {NutsDB Tx T : Type} {NE : nutsdb.Engine NutsDB Tx T}.
Context {Cache : Type} {RE : ristretto.Engine Cache}.
Context (pebble_contents : PebbleDB → gmap bytes bytes)
        (nutsdb_contents : NutsDB → gmap (string * bytes) bytes)
        (nutsdb_view : Tx → gmap (string * bytes) bytes)
        (ristretto_contents : Cache → gmap string ristretto.item).
Context (pebble_ok : pebble.Contract pebble_contents)
        (nutsdb_ok : nutsdb.Contract nutsdb_contents nutsdb_view)
        (ristretto_ok : ristretto.Contract ristretto_contents).


(** X9.  Over an engine that keeps its contract, a [Delete] that returns
    nil has removed the record under the engine key of [k], if there was
    one, and has changed no other record. *)
Theorem Delete_removes_the_record :
  (∀ (s s1 : pebble.Store V PebbleDB) k,
     pebble.Store_Delete s k = Done (s1, None) →
     pebble.stored pebble_contents s1
       = delete (bytes_of k) (pebble.stored pebble_contents s)) ∧
  (∀ (s s1 : nutsdb.Store V NutsDB) k,
     nutsdb.Store_Delete s k = Done (s1, None) →
     nutsdb.stored nutsdb_contents s1
       = delete (nutsdb.bucketName s, bytes_of k)
           (nutsdb.stored nutsdb_contents s)) ∧
  (∀ (s s1 : ristretto.Store V Cache) k,
     ristretto.Store_Delete s k = Done (s1, None) →
     ristretto.stored ristretto_contents s1
       = delete k (ristretto.stored ristretto_contents s)).
Proof.
  split; [|split]; intros s s1 k Hdel.
  - by apply pebble_Delete_records.
  - by apply (nutsdb_Delete_records nutsdb_contents nutsdb_view).
  - by apply ristretto_Delete_records.
Qed.

(** X10.  Over an engine that keeps its contract, what a valid [Get] on a
    ready store hands back is decided by the record under the key alone:
    no record gives [(false, nil)] and the target untouched, bytes give
    found = true with the target and error of [Unmarshal]; in ristretto an
    entry holding nil counts as no record and an entry that holds no
    [[]byte] gives [(false, ErrFailedToCast)] and the target untouched. *)
Theorem Get_answers_from_the_record :
  (∀ (s : pebble.Store V PebbleDB) c k v,
     is_Some (pebble.db s) → pebble.codec s = Some c →
     k ≠ ""%string → is_nil v = false →
     ∃ s', let a := answer c (pebble.stored pebble_contents s !! bytes_of k) v in
           pebble.Store_Get s k v = Done (s', a.1, a.2)) ∧
  (∀ (s : nutsdb.Store V NutsDB) c k v,
     is_Some (nutsdb.db s) → nutsdb.codec s = Some c →
     k ≠ ""%string → is_nil v = false →
     ∃ s', let a := answer c (nutsdb.stored nutsdb_contents s
                                !! (nutsdb.bucketName s, bytes_of k)) v in
           nutsdb.Store_Get s k v = Done (s', a.1, a.2)) ∧
  (∀ (s : ristretto.Store V Cache) c k v,
     is_Some (ristretto.db s) → ristretto.codec s = Some c →
     k ≠ ""%string → is_nil v = false →
     ∃ s', let a := ristretto_answer c
                      (ristretto.stored ristretto_contents s !! k) v in
           ristretto.Store_Get s k v = Done (s', a.1, a.2)).
Proof.
  split; [|split]; intros s c k v Hd Hc Hk Hv.
  - by apply pebble_Get_answer.
  - by apply (nutsdb_Get_answer nutsdb_contents nutsdb_view).
  - by apply ristretto_Get_answer.
Qed.

(** X11.  Over an engine that keeps its contract, a [Set] or a [Delete] of
    key [k] that returns nil does not change what [Get] of another key [k']
    hands back: the same target, found flag and error before and after. *)
Theorem other_keys_are_not_disturbed :
  (∀ (s s1 : pebble.Store V PebbleDB) c k k' x v,
     k' ≠ k →
     pebble.Store_Set s k x = Done (s1, None) ∨
       pebble.Store_Delete s k = Done (s1, None) →
     pebble.codec s = Some c → k' ≠ ""%string → is_nil v = false →
     ∃ s2 s3 v' res,
       pebble.Store_Get s k' v = Done (s2, v', res) ∧
       pebble.Store_Get s1 k' v = Done (s3, v', res)) ∧
  (∀ (s s1 : nutsdb.Store V NutsDB) c k k' x v,
     k' ≠ k →
     nutsdb.Store_Set s k x = Done (s1, None) ∨
       nutsdb.Store_Delete s k = Done (s1, None) →
     nutsdb.codec s = Some c → k' ≠ ""%string → is_nil v = false →
     ∃ s2 s3 v' res,
       nutsdb.Store_Get s k' v = Done (s2, v', res) ∧
       nutsdb.Store_Get s1 k' v = Done (s3, v', res)) ∧
  (∀ (s s1 : ristretto.Store V Cache) c k k' x v,
     k' ≠ k →
     ristretto.Store_Set s k x = Done (s1, None) ∨
       ristretto.Store_Delete s k = Done (s1, None) →
     ristretto.codec s = Some c → k' ≠ ""%string → is_nil v = false →
     ∃ s2 s3 v' res,
       ristretto.Store_Get s k' v = Done (s2, v', res) ∧
       ristretto.Store_Get s1 k' v = Done (s3, v', res)).
Proof.
  split; [|split]; intros s s1 c k k' x v Hne Hcall Hc Hk Hv.
  - by apply (pebble_other_keys pebble_contents pebble_ok s s1 c k k' x v).
  - by apply (nutsdb_other_keys nutsdb_contents nutsdb_view nutsdb_ok
                s s1 c k k' x v).
  - by apply (ristretto_other_keys ristretto_contents ristretto_ok
                s s1 c k k' x v).
Qed.

End Records.

Section Conformance.
Context {PebbleDB Closer : Type} {PE : pebble.Engine PebbleDB Closer}.
Context {NutsDB Tx T : Type} {NE : nutsdb.Engine NutsDB Tx T}.
Context {Cache : Type} {RE : ristretto.Engine Cache}.
Context (pebble_contents : PebbleDB → gmap bytes bytes)
        (nutsdb_contents : NutsDB → gmap (string * bytes) bytes)
        (nutsdb_view : Tx → gmap (string * bytes) bytes)
        (ristretto_contents : Cache → gmap string ristretto.item).
Context (pebble_ok : pebble.Contract pebble_contents)
        (nutsdb_ok : nutsdb.Contract nutsdb_contents nutsdb_view)
        (ristretto_ok : ristretto.Contract ristretto_contents).
Context (pebble_writes : pebble_accepts_writes (DB := PebbleDB))
        (nutsdb_writes : nutsdb_accepts_writes (DB := NutsDB))
        (ristretto_writes : ristretto_accepts_writes (Cache := Cache)).


End Conformance.

(** ** More on the conformance tests *)

Section HarnessFacts.
Context {S : Type}.
Variable Set_ : S → string → iface mem.Foo → outcome (S * option error).
Variable Get_ : S → string → iface mem.Foo
                → outcome (S * iface mem.Foo * (bool * option error)).
Variable Delete_ : S → string → outcome (S * option error).

Lemma report_error_nil (err : option error) :
  test.report_error err = [] → err = None.
Proof. by destruct err. Qed.

(** X13.  What a [TestStore] without reports certifies, for any store: the
    first [Get] found nothing, the [Set] of [Foo{Bar: "baz"}] returned nil,
    the [Get] after it found a value equal to the one written, and the
    [Get] after the last [Delete] found nothing, all six calls without an
    error. *)
Theorem TestStore_without_reports_means (s s' : S) (key : string) :
  test.TestStore Set_ Get_ Delete_ s key = Done (s', []) →
  ∃ s1 s2 s3 s4 s5 v1 actualPtr v6,
    Get_ s key (Ptr mem.zero_Foo) = Done (s1, v1, (false, None)) ∧
    Delete_ s1 key = Done (s2, None) ∧
    Set_ s2 key (Val mem.user1) = Done (s3, None) ∧
    Get_ s3 key (Ptr mem.zero_Foo) = Done (s4, actualPtr, (true, None)) ∧
    test.pointee actualPtr = mem.user1 ∧
    Delete_ s4 key = Done (s5, None) ∧
    Get_ s5 key (Ptr mem.zero_Foo) = Done (s', v6, (false, None)).
Proof.
  unfold test.TestStore. cbv zeta.
  change {| mem.Bar := "baz"; mem.privateBar := "" |} with mem.user1.
  destruct (Get_ s key _) as [[[s1 v1] [found1 err1]]|] eqn:H1; [simpl|done].
  destruct (Delete_ s1 key) as [[s2 err2]|] eqn:H2; [simpl|done].
  destruct (Set_ s2 key _) as [[s3 err3]|] eqn:H3; [simpl|done].
  destruct (Get_ s3 key _) as [[[s4 actualPtr] [found4 err4]]|] eqn:H4;
    [simpl|done].
  destruct (Delete_ s4 key) as [[s5 err5]|] eqn:H5; [simpl|done].
  destruct (Get_ s5 key _) as [[[s6 v6] [found6 err6]]|] eqn:H6; [simpl|done].
  intros [= <- Ht].
  apply app_nil in Ht as [Ht Hfound6].
  apply app_nil in Ht as [Ht Herr6%report_error_nil].
  apply app_nil in Ht as [Ht Herr5%report_error_nil].
  apply app_nil in Ht as [Ht Hsame].
  apply app_nil in Ht as [Ht Hfound4].
  apply app_nil in Ht as [Ht Herr4%report_error_nil].
  apply app_nil in Ht as [Ht Herr3%report_error_nil].
  apply app_nil in Ht as [Ht Herr2%report_error_nil].
  apply app_nil in Ht as [Herr1%report_error_nil Hfound1].
  subst. destruct found1; [done|]. destruct found4; [|done].
  destruct found6; [done|].
  destruct (decide (test.pointee actualPtr = mem.user1)) as [Heq|]; [|done].
  by exists s1, s2, s3, s4, s5, v1, actualPtr, v6.
Qed.

Variable ready readable : S → Prop.
Variable key : string.

(** [InteractWithStore] reports nothing and marks the wait group once on a
    store whose record under [key] can be read and whose [Set] of [Foo{}]
    returns nil and leaves a record that can be read. *)
Lemma InteractWithStore_reports_nothing_when {W : Type}
    (waitGroup_Done : W → outcome W) :
  (∀ s, ready s → readable s →
     ∃ s' v found, Get_ s key (Ptr mem.zero_Foo) = Done (s', v, (found, None)) ∧
                   ready s') →
  (∀ s, ready s →
     ∃ s', Set_ s key (Val mem.zero_Foo) = Done (s', None) ∧
           ready s' ∧ readable s') →
  ∀ s w w', ready s → readable s → waitGroup_Done w = Done w' →
    ∃ s', test.InteractWithStore Set_ Get_ waitGroup_Done s key w
          = Done (s', [], w').
Proof.
  intros Hget Hset s w w' Hr Hread Hdone. unfold test.InteractWithStore.
  destruct (Hget s Hr Hread) as (s1 & v1 & f1 & -> & Hr1). simpl.
  destruct (Hset s1 Hr1) as (s2 & -> & Hr2 & Hread2). simpl.
  destruct (Hget s2 Hr2 Hread2) as (s3 & v3 & f3 & -> & Hr3). simpl.
  rewrite Hdone. simpl. by exists s3.
Qed.

End HarnessFacts.

Section Interact.
Context {PebbleDB Closer : Type} {PE : pebble.Engine PebbleDB Closer}.
Context {NutsDB Tx T : Type} {NE : nutsdb.Engine NutsDB Tx T}.
Context {Cache : Type} {RE : ristretto.Engine Cache}.
Context (pebble_contents : PebbleDB → gmap bytes bytes)
        (nutsdb_contents : NutsDB → gmap (string * bytes) bytes)
        (nutsdb_view : Tx → gmap (string * bytes) bytes)
        (ristretto_contents : Cache → gmap string ristretto.item).
Context (pebble_ok : pebble.Contract pebble_contents)
        (nutsdb_ok : nutsdb.Contract nutsdb_contents nutsdb_view)
        (ristretto_ok : ristretto.Contract ristretto_contents).
Context (pebble_writes : pebble_accepts_writes (DB := PebbleDB))
        (nutsdb_writes : nutsdb_accepts_writes (DB := NutsDB))
        (ristretto_writes : ristretto_accepts_writes (Cache := Cache)).
Context (c : encoding.Codec mem.Foo) (data : bytes) (key : string).
Context (Hmarshal : encoding.Marshal c (Val mem.zero_Foo) = inl data)
        (Hunmarshal : (encoding.Unmarshal c data (Ptr mem.zero_Foo)).2 = None)
        (Hkey : key ≠ ""%string).
Context {W : Type} (waitGroup_Done : W → outcome W).

Lemma pebble_InteractWithStore (s : pebble.Store mem.Foo PebbleDB) w w' :
  is_Some (pebble.db s) → pebble.codec s = Some c →
  (answer c (pebble.stored pebble_contents s !! bytes_of key)
     (Ptr mem.zero_Foo)).2.2 = None →
  waitGroup_Done w = Done w' →
  ∃ s', test.InteractWithStore pebble.Store_Set pebble.Store_Get
          waitGroup_Done s key w = Done (s', [], w').
Proof.
  intros Hd Hc Hread Hdone.
  apply (InteractWithStore_reports_nothing_when _ _
           (λ s, is_Some (pebble.db s) ∧ pebble.codec s = Some c)
           (λ s, (answer c (pebble.stored pebble_contents s !! bytes_of key)
                    (Ptr mem.zero_Foo)).2.2 = None) key waitGroup_Done);
    try done.
  - intros s0 [Hd0 Hc0] Hread0.
    destruct (pebble_Get_answer pebble_contents pebble_ok s0 c key
                (Ptr mem.zero_Foo)) as (s1 & Hget); try done.
    cbv zeta in Hget.
    destruct (answer c (pebble.stored pebble_contents s0 !! bytes_of key) _)
      as [v [found err]] eqn:Ha. simpl in *. subst err.
    exists s1, v, found. split; [done|].
    destruct (pebble_perform_config (calls.DoGet key (Ptr mem.zero_Foo)) s0 s1
                (calls.Got v found None))
      as (_ & Hc1 & Hd1); [by simpl; rewrite Hget|].
    split; [by apply Hd1 | congruence].
  - intros s0 [[d Hd0] Hc0].
    destruct (pebble_Set_accepted pebble_writes s0 c d key (Val mem.zero_Foo) data)
      as (d' & Hset); try done.
    exists (pebble.with_db s0 d'). split; [done|].
    split; [by split; [eexists|]|].
    destruct (pebble_Set_records pebble_contents pebble_ok s0 _ key _ Hset)
      as (c' & data' & Hc' & Hm' & ->).
    assert (data' = data) as -> by congruence.
    by rewrite lookup_insert_eq.
Qed.

Lemma nutsdb_InteractWithStore (s : nutsdb.Store mem.Foo NutsDB) w w' :
  is_Some (nutsdb.db s) → nutsdb.codec s = Some c →
  (answer c (nutsdb.stored nutsdb_contents s !! nutsdb.key_of s key)
     (Ptr mem.zero_Foo)).2.2 = None →
  waitGroup_Done w = Done w' →
  ∃ s', test.InteractWithStore nutsdb.Store_Set nutsdb.Store_Get
          waitGroup_Done s key w = Done (s', [], w').
Proof.
  intros Hd Hc Hread Hdone.
  set (bk := nutsdb.key_of s key) in *.
  apply (InteractWithStore_reports_nothing_when _ _
           (λ s0, is_Some (nutsdb.db s0) ∧ nutsdb.codec s0 = Some c ∧
                  nutsdb.key_of s0 key = bk)
           (λ s0, (answer c (nutsdb.stored nutsdb_contents s0 !! bk)
                     (Ptr mem.zero_Foo)).2.2 = None) key waitGroup_Done);
    try done.
  - intros s0 (Hd0 & Hc0 & Hb0) Hread0.
    destruct (nutsdb_Get_answer nutsdb_contents nutsdb_view nutsdb_ok s0 c key
                (Ptr mem.zero_Foo)) as (s1 & Hget); try done.
    cbv zeta in Hget. rewrite Hb0 in Hget.
    destruct (answer c (nutsdb.stored nutsdb_contents s0 !! bk) _)
      as [v [found err]] eqn:Ha. simpl in *. subst err.
    exists s1, v, found. split; [done|].
    destruct (nutsdb_perform_config (calls.DoGet key (Ptr mem.zero_Foo)) s0 s1
                (calls.Got v found None))
      as (Hb1 & Hc1 & Hd1); [by simpl; rewrite Hget|].
    split; [by apply Hd1|]. split; [congruence|].
    unfold nutsdb.key_of in *. by rewrite Hb1.
  - intros s0 ([d Hd0] & Hc0 & Hb0).
    destruct (nutsdb_Set_accepted nutsdb_contents nutsdb_view nutsdb_ok
                nutsdb_writes s0 c d key (Val mem.zero_Foo) data)
      as (d' & Hset); try done.
    exists (nutsdb.with_db s0 d'). split; [done|].
    split; [by split; [eexists|]|].
    destruct (nutsdb_Set_records nutsdb_contents nutsdb_view nutsdb_ok
                s0 _ key _ Hset) as (c' & data' & Hc' & Hm' & ->).
    assert (data' = data) as -> by congruence.
    by rewrite Hb0, lookup_insert_eq.
Qed.

Lemma ristretto_InteractWithStore (s : ristretto.Store mem.Foo Cache) w w' :
  is_Some (ristretto.db s) → ristretto.codec s = Some c →
  (ristretto_answer c (ristretto.stored ristretto_contents s !! key)
     (Ptr mem.zero_Foo)).2.2 = None →
  waitGroup_Done w = Done w' →
  ∃ s', test.InteractWithStore ristretto.Store_Set ristretto.Store_Get
          waitGroup_Done s key w = Done (s', [], w').
Proof.
  intros Hd Hc Hread Hdone.
  apply (InteractWithStore_reports_nothing_when _ _
           (λ s, is_Some (ristretto.db s) ∧ ristretto.codec s = Some c)
           (λ s, (ristretto_answer c
                    (ristretto.stored ristretto_contents s !! key)
                    (Ptr mem.zero_Foo)).2.2 = None) key waitGroup_Done);
    try done.
  - intros s0 [Hd0 Hc0] Hread0.
    destruct (ristretto_Get_answer ristretto_contents ristretto_ok s0 c key
                (Ptr mem.zero_Foo)) as (s1 & Hget); try done.
    cbv zeta in Hget.
    destruct (ristretto_answer c (ristretto.stored ristretto_contents s0 !! key) _)
      as [v [found err]] eqn:Ha. simpl in *. subst err.
    exists s1, v, found. split; [done|].
    destruct (ristretto_perform_config (calls.DoGet key (Ptr mem.zero_Foo)) s0 s1
                (calls.Got v found None))
      as (Hc1 & Hd1); [by simpl; rewrite Hget|].
    split; [by apply Hd1 | congruence].
  - intros s0 [[d Hd0] Hc0].
    destruct (ristretto_Set_accepted ristretto_writes s0 c d key
                (Val mem.zero_Foo) data) as (d' & Hset); try done.
    exists (ristretto.with_db s0 d'). split; [done|].
    split; [by split; [eexists|]|].
    destruct (ristretto_Set_records ristretto_contents ristretto_ok s0 _ key _ Hset)
      as (c' & data' & Hc' & Hm' & ->).
    assert (data' = data) as -> by congruence.
    by rewrite lookup_insert_eq.
Qed.

(** X14.  [InteractWithStore] reports no error on any of the three
    adapters and calls [waitGroup.Done] once, for every non-empty key whose
    record, if there is one, can be read into a fresh [Foo]: over an engine
    that keeps its contract and accepts writes, with a codec that marshals
    [Foo{}] and reads it back without an error. *)
Theorem InteractWithStore_reports_nothing (w w' : W) :
  waitGroup_Done w = Done w' →
  (∀ s : pebble.Store mem.Foo PebbleDB,
     is_Some (pebble.db s) → pebble.codec s = Some c →
     (answer c (pebble.stored pebble_contents s !! bytes_of key)
        (Ptr mem.zero_Foo)).2.2 = None →
     ∃ s', test.InteractWithStore pebble.Store_Set pebble.Store_Get
             waitGroup_Done s key w = Done (s', [], w')) ∧
  (∀ s : nutsdb.Store mem.Foo NutsDB,
     is_Some (nutsdb.db s) → nutsdb.codec s = Some c →
     (answer c (nutsdb.stored nutsdb_contents s
                  !! (nutsdb.bucketName s, bytes_of key))
        (Ptr mem.zero_Foo)).2.2 = None →
     ∃ s', test.InteractWithStore nutsdb.Store_Set nutsdb.Store_Get
             waitGroup_Done s key w = Done (s', [], w')) ∧
  (∀ s : ristretto.Store mem.Foo Cache,
     is_Some (ristretto.db s) → ristretto.codec s = Some c →
     (ristretto_answer c (ristretto.stored ristretto_contents s !! key)
        (Ptr mem.zero_Foo)).2.2 = None →
     ∃ s', test.InteractWithStore ristretto.Store_Set ristretto.Store_Get
             waitGroup_Done s key w = Done (s', [], w')).
Proof.
  intros Hdone. split; [|split]; intros s Hd Hc Hread.
  - by apply pebble_InteractWithStore.
  - by apply nutsdb_InteractWithStore.
  - by apply ristretto_InteractWithStore.
Qed.

End Interact.

(** ** Errors of [Get], and writes to one key *)

Section MoreCalls.
Context {V : Type}.
Context {PebbleDB Closer : Type} {PE : pebble.Engine PebbleDB Closer}.
Context {NutsDB Tx T : Type} {NE : nutsdb.Engine NutsDB Tx T}.
Context {Cache : Type} {RE : ristretto.Engine Cache}.

(** X15.  The errors [Get] returns together with found = false.  In all
    three adapters: the validation error, with the store as passed in.
    Besides that, pebble returns the error of the engine's read as the
    engine returned it, unless it is [ErrNotFound]; ristretto returns
    [ErrFailedToCast] for an entry that is present, not nil and not a
    [[]byte]; nutsdb returns no other error. *)
Theorem Get_errors_without_a_value :
  (∀ (s s' : pebble.Store V PebbleDB) k v v' err,
     pebble.Store_Get s k v = Done (s', v', (false, Some err)) →
     (s' = s ∧ util.CheckKeyAndValue k v = Some err) ∨
     (err ≠ ErrNotFound ∧
      ∃ d d', pebble.db s = Some d ∧
        pebble.db_Get d (bytes_of k) = (d', inr err) ∧
        s' = pebble.with_db s d')) ∧
  (∀ (s s' : nutsdb.Store V NutsDB) k v v' err,
     nutsdb.Store_Get s k v = Done (s', v', (false, Some err)) →
     s' = s ∧ util.CheckKeyAndValue k v = Some err) ∧
  (∀ (s s' : ristretto.Store V Cache) k v v' err,
     ristretto.Store_Get s k v = Done (s', v', (false, Some err)) →
     (s' = s ∧ util.CheckKeyAndValue k v = Some err) ∨
     (err = ErrFailedToCast ∧
      ∃ d d' typ, ristretto.db s = Some d ∧
        ristretto.cache_Get d k = (d', (ristretto.IOther typ, true)) ∧
        s' = ristretto.with_db s d')).
Proof.
  split; [|split]; intros s s' k v v' err.
  - unfold pebble.Store_Get.
    destruct (util.CheckKeyAndValue k v) as [verr|] eqn:Hcheck.
    { intros [= <- _ <-]. by left. }
    destruct (pebble.db s) as [d|] eqn:Hd; [simpl|done].
    destruct (pebble.db_Get d (bytes_of k)) as [d' [[data closer]|e]] eqn:Hget.
    + destruct (pebble.closer_Close d' closer) as [d'' cerr].
      destruct (pebble.codec s) as [c|]; [simpl|done].
      by destruct (encoding.Unmarshal c data v).
    + destruct (decide (e = ErrNotFound)) as [|Hne]; [done|].
      intros [= <- _ <-]. right. split; [done|]. by exists d, d'.
  - unfold nutsdb.Store_Get.
    destruct (util.CheckKeyAndValue k v) as [verr|] eqn:Hcheck.
    { by intros [= <- _ <-]. }
    destruct (nutsdb.db s) as [d|]; [simpl|done].
    destruct (nutsdb.db_View d None _) as [[d' data] [e|]]; [done|].
    destruct data as [data|]; [|done].
    destruct (nutsdb.codec s) as [c|]; [simpl|done].
    by destruct (encoding.Unmarshal c data v).
  - unfold ristretto.Store_Get.
    destruct (util.CheckKeyAndValue k v) as [verr|] eqn:Hcheck.
    { intros [= <- _ <-]. by left. }
    destruct (ristretto.db s) as [d|] eqn:Hd; [simpl|done].
    destruct (ristretto.cache_Get d k) as [d' [value ok]] eqn:Hget.
    destruct ok; [|done].
    destruct value as [|data|typ]; simpl; [done| |].
    + destruct (ristretto.codec s) as [c|]; [simpl|done].
      by destruct (encoding.Unmarshal c data v).
    + intros [= <- _ <-]. right. split; [done|]. by exists d, d', typ.
Qed.

Context (pebble_contents : PebbleDB → gmap bytes bytes)
        (nutsdb_contents : NutsDB → gmap (string * bytes) bytes)
        (nutsdb_view : Tx → gmap (string * bytes) bytes)
        (ristretto_contents : Cache → gmap string ristretto.item).
Context (pebble_ok : pebble.Contract pebble_contents)
        (nutsdb_ok : nutsdb.Contract nutsdb_contents nutsdb_view)
        (ristretto_ok : ristretto.Contract ristretto_contents).


End MoreCalls.

(** ** The further properties on the in-memory stores *)

Lemma mem_pebble_accepts_writes :
  pebble_accepts_writes (H := mem.pebble_engine).
Proof. by split. Qed.

Lemma mem_nutsdb_accepts_writes :
  nutsdb_accepts_writes (H := mem.nutsdb_engine).
Proof. by split. Qed.

Lemma mem_ristretto_accepts_writes :
  ristretto_accepts_writes (H := mem.ristretto_engine).
Proof. done. Qed.

Lemma Set_errors_are_accounted_for_witness :
  ristretto.Store_Set (H := mem.ristretto_rejecting)
      mem.ristretto_store "user1" (Val mem.user1)
    = Done (mem.ristretto_store, Some ErrPairIsNotAdded) ∧
  ((mem.ristretto_store = mem.ristretto_store ∧
    util.CheckKeyAndValue "user1" (Val mem.user1) = Some ErrPairIsNotAdded) ∨
   (mem.ristretto_store = mem.ristretto_store ∧
    ∃ c, ristretto.codec mem.ristretto_store = Some c ∧
         encoding.Marshal c (Val mem.user1) = inr ErrPairIsNotAdded) ∨
   (∃ c d d' data,
      ristretto.codec mem.ristretto_store = Some c ∧
      ristretto.db mem.ristretto_store = Some d ∧
      encoding.Marshal c (Val mem.user1) = inl data ∧
      ristretto.cache_Set (Engine := mem.ristretto_rejecting)
        d "user1" (ristretto.IBytes data) 0 = (d', false) ∧
      ErrPairIsNotAdded = ErrPairIsNotAdded ∧
      mem.ristretto_store = ristretto.with_db mem.ristretto_store d')).
Proof.
  split; [reflexivity|].
  destruct (Set_errors_are_accounted_for
              (V := mem.Foo) (PE := mem.pebble_engine)
              (NE := mem.nutsdb_engine) (RE := mem.ristretto_rejecting))
    as (_ & _ & Hr).
  apply (Hr mem.ristretto_store mem.ristretto_store "user1" (Val mem.user1)).
  reflexivity.
Defined.

Lemma Get_leaves_the_target_unless_found_witness :
  nutsdb.Store_Get (H := mem.nutsdb_failing_reads)
      mem.nutsdb_store_failing "user1" (Ptr mem.zero_Foo)
    = Done (mem.nutsdb_store_failing, Ptr mem.zero_Foo, (false, None)) ∧
  Ptr mem.zero_Foo = Ptr mem.zero_Foo.
Proof.
  split; [reflexivity|].
  destruct (Get_leaves_the_target_unless_found
              (V := mem.Foo) (PE := mem.pebble_engine)
              (NE := mem.nutsdb_failing_reads) (RE := mem.ristretto_engine))
    as (_ & Hn & _).
  apply (Hn mem.nutsdb_store_failing mem.nutsdb_store_failing "user1"
            (Ptr mem.zero_Foo) (Ptr mem.zero_Foo) None).
  reflexivity.
Defined.


Lemma Delete_errors_are_accounted_for_witness :
  ristretto.Store_Delete (H := mem.ristretto_engine) mem.ristretto_store ""
    = Done (mem.ristretto_store, Some ErrEmptyKey) ∧
  (""%string = ""%string ∧ ErrEmptyKey = ErrEmptyKey ∧
   mem.ristretto_store = mem.ristretto_store).
Proof.
  split; [reflexivity|].
  destruct (Delete_errors_are_accounted_for
              (V := mem.Foo) (PE := mem.pebble_engine)
              (NE := mem.nutsdb_engine) (RE := mem.ristretto_engine))
    as (_ & _ & Hr).
  apply (Hr mem.ristretto_store mem.ristretto_store "" ErrEmptyKey).
  reflexivity.
Defined.

Lemma setDefaults_leaves_no_field_unset_witness :
  nutsdb.BucketName
    (nutsdb.setDefaults (nutsdb.initial mem.Foo_codec)
       {| nutsdb.BucketName := ""; nutsdb.Path := ""; nutsdb.Sync := true;
          nutsdb.NodeNum := 0; nutsdb.Codec := None |}) ≠ ""%string ∧
  nutsdb.Path
    (nutsdb.setDefaults (nutsdb.initial mem.Foo_codec)
       {| nutsdb.BucketName := ""; nutsdb.Path := ""; nutsdb.Sync := true;
          nutsdb.NodeNum := 0; nutsdb.Codec := None |}) ≠ ""%string ∧
  nutsdb.NodeNum
    (nutsdb.setDefaults (nutsdb.initial mem.Foo_codec)
       {| nutsdb.BucketName := ""; nutsdb.Path := ""; nutsdb.Sync := true;
          nutsdb.NodeNum := 0; nutsdb.Codec := None |}) ≠ 0 ∧
  is_Some (nutsdb.Codec
    (nutsdb.setDefaults (nutsdb.initial mem.Foo_codec)
       {| nutsdb.BucketName := ""; nutsdb.Path := ""; nutsdb.Sync := true;
          nutsdb.NodeNum := 0; nutsdb.Codec := None |})).
Proof.
  destruct (setDefaults_leaves_no_field_unset (V := mem.Foo)) as (_ & Hn & _).
  apply (Hn (nutsdb.initial mem.Foo_codec)); simpl;
    [discriminate | discriminate | lia | by eexists].
Defined.

Lemma pebble_WriteSync_reaches_every_write_witness :
  ∃ s s1 rs,
    pebble.NewStore (H := mem.pebble_engine) (pebble.initial mem.Foo_codec)
        {| pebble.Path := ""; pebble.WriteSync := true; pebble.Codec := None |}
      = (pebble.initial mem.Foo_codec, (s, None)) ∧
    calls.run (pebble.Store_Set (H := mem.pebble_engine))
        (pebble.Store_Get (H := mem.pebble_engine))
        (pebble.Store_Delete (H := mem.pebble_engine))
        (pebble.Store_Close (H := mem.pebble_engine))
        [calls.DoSet "user1" (Val mem.user1)] s = Done (s1, rs) ∧
    pebble.Store_Delete (H := mem.pebble_engine) s1 "user1"
      = Done (pebble.with_db s1
                (pebble.db_Delete (Engine := mem.pebble_engine)
                   {[ bytes_of "user1" := mem.user1_data ]} (bytes_of "user1")
                   (Some {| pebble.Sync := true |})).1,
              (pebble.db_Delete (Engine := mem.pebble_engine)
                 {[ bytes_of "user1" := mem.user1_data ]} (bytes_of "user1")
                 (Some {| pebble.Sync := true |})).2).
Proof.
  do 3 eexists. split; [reflexivity|]. split; [reflexivity|].
  apply (proj2 (pebble_WriteSync_reaches_every_write
                  (PE := mem.pebble_engine)
                  (pebble.initial mem.Foo_codec) (pebble.initial mem.Foo_codec)
                  {| pebble.Path := ""; pebble.WriteSync := true;
                     pebble.Codec := None |}
                  _ _ [calls.DoSet "user1" (Val mem.user1)] _
                  eq_refl eq_refl));
    [discriminate | reflexivity].
Defined.

Lemma a_store_from_NewStore_stays_ready_witness :
  ∃ s,
    ristretto.NewStore (H := mem.ristretto_engine)
        (ristretto.initial mem.Foo_codec) mem.ristretto_options
      = (ristretto.initial mem.Foo_codec, (s, None)) ∧
    ∃ s1 rs,
      calls.run (ristretto.Store_Set (H := mem.ristretto_engine))
          (ristretto.Store_Get (H := mem.ristretto_engine))
          (ristretto.Store_Delete (H := mem.ristretto_engine))
          (ristretto.Store_Close (H := mem.ristretto_engine))
          [calls.DoSet "user1" (Val mem.user1);
           calls.DoGet "user1" (Ptr mem.zero_Foo);
           calls.DoDelete "user1"; calls.DoClose] s = Done (s1, rs) ∧
      ristretto_ready s1 ∧ ristretto.codec s1 = ristretto.codec s ∧
      length rs = 4%nat.
Proof.
  eexists. split; [reflexivity|].
  destruct (a_store_from_NewStore_stays_ready
              (V := mem.Foo) (PE := mem.pebble_engine)
              (NE := mem.nutsdb_engine) (RE := mem.ristretto_engine))
    as (_ & _ & Hr).
  apply (Hr (ristretto.initial mem.Foo_codec) (ristretto.initial mem.Foo_codec)
            mem.ristretto_options _ eq_refl).
  left. by eexists.
Defined.


Lemma Delete_removes_the_record_witness :
  nutsdb.Store_Delete (H := mem.nutsdb_engine)
      (mem.nutsdb_store_with mem.user1_data) "user1"
    = Done (mem.nutsdb_store, None) ∧
  nutsdb.stored id mem.nutsdb_store
    = delete ("default"%string, bytes_of "user1")
        (nutsdb.stored id (mem.nutsdb_store_with mem.user1_data)).
Proof.
  split; [reflexivity|].
  destruct (Delete_removes_the_record
              (V := mem.Foo) (PE := mem.pebble_engine)
              (NE := mem.nutsdb_engine) (RE := mem.ristretto_engine)
              id id id snd
              mem_pebble_contract mem_nutsdb_contract mem_ristretto_contract)
    as (_ & Hn & _).
  apply (Hn (mem.nutsdb_store_with mem.user1_data) mem.nutsdb_store "user1").
  reflexivity.
Defined.

Lemma Get_answers_from_the_record_witness :
  ∃ s',
    ristretto.Store_Get (H := mem.ristretto_engine)
        (mem.ristretto_store_with (ristretto.IOther "string"))
        "user1" (Ptr mem.zero_Foo)
      = Done (s', Ptr mem.zero_Foo, (false, Some ErrFailedToCast)).
Proof.
  destruct (Get_answers_from_the_record
              (V := mem.Foo) (PE := mem.pebble_engine)
              (NE := mem.nutsdb_engine) (RE := mem.ristretto_engine)
              id id id snd
              mem_pebble_contract mem_nutsdb_contract mem_ristretto_contract)
    as (_ & _ & Hr).
  destruct (Hr (mem.ristretto_store_with (ristretto.IOther "string"))
               mem.Foo_codec "user1" (Ptr mem.zero_Foo))
    as [s' Hget]; [by eexists | reflexivity | discriminate | reflexivity |].
  exists s'. exact Hget.
Defined.

Lemma other_keys_are_not_disturbed_witness :
  ∃ s1,
    pebble.Store_Set (H := mem.pebble_engine)
        (mem.pebble_store_with mem.user1_data) "user2" (Val mem.zero_Foo)
      = Done (s1, None) ∧
    ∃ s2 s3 v' res,
      pebble.Store_Get (H := mem.pebble_engine)
          (mem.pebble_store_with mem.user1_data) "user1" (Ptr mem.zero_Foo)
        = Done (s2, v', res) ∧
      pebble.Store_Get (H := mem.pebble_engine) s1 "user1" (Ptr mem.zero_Foo)
        = Done (s3, v', res).
Proof.
  eexists. split; [reflexivity|].
  destruct (other_keys_are_not_disturbed
              (V := mem.Foo) (PE := mem.pebble_engine)
              (NE := mem.nutsdb_engine) (RE := mem.ristretto_engine)
              id id id snd
              mem_pebble_contract mem_nutsdb_contract mem_ristretto_contract)
    as (Hp & _ & _).
  apply (Hp (mem.pebble_store_with mem.user1_data) _ mem.Foo_codec
            "user2" "user1" (Val mem.zero_Foo) (Ptr mem.zero_Foo));
    [discriminate | left; reflexivity | reflexivity | discriminate
    | reflexivity].
Defined.


Lemma InteractWithStore_reports_nothing_witness :
  ∃ s',
    test.InteractWithStore (ristretto.Store_Set (H := mem.ristretto_engine))
        (ristretto.Store_Get (H := mem.ristretto_engine))
        (λ n : Z, Done (n - 1))
        (mem.ristretto_store_with (ristretto.IBytes mem.user1_data)) "user1" 1
      = Done (s', [], 0).
Proof.
  destruct (InteractWithStore_reports_nothing
              (PE := mem.pebble_engine) (NE := mem.nutsdb_engine)
              (RE := mem.ristretto_engine)
              id id id snd
              mem_pebble_contract mem_nutsdb_contract mem_ristretto_contract
              mem_pebble_accepts_writes mem_nutsdb_accepts_writes
              mem_ristretto_accepts_writes
              mem.Foo_codec ("{"%byte :: bytes_of "") "user1"
              eq_refl eq_refl ltac:(discriminate)
              (λ n : Z, Done (n - 1)) 1 0 eq_refl)
    as (_ & _ & Hr).
  apply Hr; [by eexists | reflexivity | reflexivity].
Defined.

Lemma TestStore_without_reports_means_witness :
  test.TestStore (pebble.Store_Set (H := mem.pebble_engine))
      (pebble.Store_Get (H := mem.pebble_engine))
      (pebble.Store_Delete (H := mem.pebble_engine))
      mem.pebble_store "user1"
    = Done (mem.pebble_store, []) ∧
  ∃ s1 s2 s3 s4 s5 v1 actualPtr v6,
    pebble.Store_Get (H := mem.pebble_engine)
        mem.pebble_store "user1" (Ptr mem.zero_Foo)
      = Done (s1, v1, (false, None)) ∧
    pebble.Store_Delete (H := mem.pebble_engine) s1 "user1"
      = Done (s2, None) ∧
    pebble.Store_Set (H := mem.pebble_engine) s2 "user1" (Val mem.user1)
      = Done (s3, None) ∧
    pebble.Store_Get (H := mem.pebble_engine) s3 "user1" (Ptr mem.zero_Foo)
      = Done (s4, actualPtr, (true, None)) ∧
    test.pointee actualPtr = mem.user1 ∧
    pebble.Store_Delete (H := mem.pebble_engine) s4 "user1"
      = Done (s5, None) ∧
    pebble.Store_Get (H := mem.pebble_engine) s5 "user1" (Ptr mem.zero_Foo)
      = Done (mem.pebble_store, v6, (false, None)).
Proof.
  split; [reflexivity|].
  apply (TestStore_without_reports_means
           (pebble.Store_Set (H := mem.pebble_engine))
           (pebble.Store_Get (H := mem.pebble_engine))
           (pebble.Store_Delete (H := mem.pebble_engine))
           mem.pebble_store mem.pebble_store "user1").
  reflexivity.
Defined.

Lemma Get_errors_without_a_value_witness :
  pebble.Store_Get (H := mem.pebble_failing_reads)
      mem.pebble_store_failing "user1" (Ptr mem.zero_Foo)
    = Done (mem.pebble_store_failing, Ptr mem.zero_Foo,
            (false, Some mem.io_error)) ∧
  ((mem.pebble_store_failing = mem.pebble_store_failing ∧
    util.CheckKeyAndValue "user1" (Ptr mem.zero_Foo) = Some mem.io_error) ∨
   (mem.io_error ≠ ErrNotFound ∧
    ∃ d d',
      pebble.db mem.pebble_store_failing = Some d ∧
      pebble.db_Get (Engine := mem.pebble_failing_reads) d (bytes_of "user1")
        = (d', inr mem.io_error) ∧
      mem.pebble_store_failing = pebble.with_db mem.pebble_store_failing d')).
Proof.
  split; [reflexivity|].
  destruct (Get_errors_without_a_value
              (V := mem.Foo) (PE := mem.pebble_failing_reads)
              (NE := mem.nutsdb_engine) (RE := mem.ristretto_engine))
    as (Hp & _ & _).
  apply (Hp mem.pebble_store_failing mem.pebble_store_failing "user1"
            (Ptr mem.zero_Foo) (Ptr mem.zero_Foo)).
  reflexivity.
Defined.

